(** * The FIL backend's execute entry point (src/src/api.cu)

    A shallow embedding of [TRITONBACKEND_ModelInstanceExecute] and of the
    helpers it drives.  The C++ function is a pair of nested try scopes
    around a loop over input batches; local variables ([responses],
    [end_request], [total_inference_count]) are mutated inside the scopes
    and survive unwinding.  The embedding is therefore a state monad with
    exceptions in which a thrown exception keeps the state reached so far.

    Everything the function does to the serving host (prediction, sync,
    sending a response, recording a statistic, logging, releasing a
    request) is appended to a trace of events; the claims of the
    specification are statements about that trace, about the returned
    error and about the local variables. *)

From Stdlib Require Import List ZArith String Lia Bool Arith PeanoNat.
From Stdlib Require Import NArith DecimalString.
Import ListNotations.

Set Implicit Arguments.

(** ** Data model *)

(** [TRITONBACKEND_Request*]: an opaque handle owned by the host. *)
Definition Request := nat.

(** [TRITONSERVER_Error]: code and message. *)
Record TRITONSERVER_Error := mkError {
  err_code : nat;
  err_msg : string
}.

(** [TritonException] wraps the server error it was built from;
    [error()] gives it back and [what()] is its message. *)
Record TritonException := mkException {
  error : TRITONSERVER_Error
}.

Definition what (e : TritonException) : string := err_msg (error e).

(** Result of a call that either returns or throws a [TritonException]. *)
Inductive Outcome (A : Type) : Type :=
| Normal (a : A)
| Thrown (e : TritonException).

Arguments Normal {A} a.
Arguments Thrown {A} e.

Inductive InstanceKind := KIND_AUTO | KIND_CPU | KIND_GPU | KIND_MODEL.

Inductive MemoryType := MEMORY_CPU | MEMORY_CPU_PINNED | MEMORY_GPU.

(** [ModelState]: only the two members the execute path reads. *)
Record ModelState := mkModelState {
  predict_proba : bool;
  num_class : Z
}.

(** [ModelInstanceState]: [StateForModel()] and [Kind()].  The raft handle
    is passed through to the tensor helpers untouched and is left out. *)
Record ModelInstanceState := mkInstanceState {
  StateForModel : Outcome ModelState;
  Kind : InstanceKind
}.

(** A staged tensor is an opaque buffer handle. *)
Definition Tensor := nat.

(** One element of the sequence returned by [get_input_batches]:
    [batch.data], [batch.shapes] (one input shape per covered request)
    and [batch.extent] (first, one past last). *)
Record InputBatch := mkBatch {
  data : Tensor;
  shapes : list (list Z);
  extent : nat * nat
}.

(** What [get_output_batch] returns: the output tensor staged for the
    batch requests with the planned shapes in the target memory. *)
Record OutputBatch := mkOutput {
  out_requests : list Request;
  out_shapes : list (list Z);
  out_memory : MemoryType
}.

(** [TRITONBACKEND_Response*]: a response object bound to the request it
    was constructed for. *)
Record Response := mkResponse {
  response_request : Request
}.

(** The two overloads of [report_statistics]: per request list with a
    success flag, and per invocation with a unit count. *)
Inductive StatRecord :=
| StatRequests (requests : list Request) (success : bool)
    (start compute_start compute_end finish : Z)
| StatBatch (count : Z) (start compute_start compute_end finish : Z).

(** What the host observes. [EvSend r None] is a success response on the
    channel of [r], [EvSend r (Some e)] an error response carrying [e]. *)
Inductive Event :=
| EvPredict (input : Tensor) (output : OutputBatch) (proba : bool)
| EvSync (output : OutputBatch)
| EvSend (r : Request) (err : option TRITONSERVER_Error)
| EvStat (s : StatRecord)
| EvLog (msg : string)
| EvRelease (r : Request).

(** The external collaborators.  None of them is under src/: each call
    that may throw is given by its outcome as a function of its
    arguments, and the steady clock by the value of its n-th reading.

    Modelled from the spec: [get_input_batches] is the BatchPlanner, a
    lazy sequence of batches that may fail while forming the next one;
    its outcome is the batches it yields and, when planning fails after
    them, the exception it throws.  A planner that fails eagerly yields
    no batch before its exception. *)
Record Host := mkHost {
  get_instance_state : Outcome ModelInstanceState;
  get_native_memory_for_instance : InstanceKind -> Outcome MemoryType;
  get_input_batches :
    list Request -> MemoryType -> list InputBatch * option TritonException;
  construct_responses_throws : list Request -> option TritonException;
  get_output_batch_throws :
    list Request -> MemoryType -> list (list Z) -> option TritonException;
  predict_throws : Tensor -> OutputBatch -> bool -> option TritonException;
  sync_throws : OutputBatch -> option TritonException;
  report_statistics_throws : StatRecord -> option TritonException;
  steady_clock : nat -> Z
}.

(** ** The monad: local variables, clock readings and the trace *)

Record Frame := mkFrame {
  trace : list Event;
  ticks : nat;
  responses : list Response;
  end_request : nat;
  total_inference_count : Z
}.

Definition Exec (A : Type) : Type := Frame -> Frame * Outcome A.

Definition ret {A} (a : A) : Exec A := fun s => (s, Normal a).

Definition bind {A B} (m : Exec A) (k : A -> Exec B) : Exec B :=
  fun s =>
    match m s with
    | (s', Normal a) => k a s'
    | (s', Thrown e) => (s', Thrown e)
    end.

Definition throw {A} (e : TritonException) : Exec A :=
  fun s => (s, Thrown e).

(** [try { m } catch (TritonException& e) { h e }]. *)
Definition try_catch {A} (m : Exec A) (h : TritonException -> Exec A)
  : Exec A :=
  fun s =>
    match m s with
    | (s', Normal a) => (s', Normal a)
    | (s', Thrown e) => h e s'
    end.

Declare Scope exec_scope.
Delimit Scope exec_scope with exec.
Notation "x <- m ;; k" := (bind m (fun x => k))
  (at level 61, m at next level, right associativity) : exec_scope.
Notation "m ;; k" := (bind m (fun _ => k))
  (at level 61, right associativity) : exec_scope.
Local Open Scope exec_scope.

Definition emit_all (evs : list Event) (s : Frame) : Frame :=
  mkFrame (trace s ++ evs) (ticks s) (responses s) (end_request s)
    (total_inference_count s).

Definition emit (evs : list Event) : Exec unit :=
  fun s => (emit_all evs s, Normal tt).

Definition set_responses (rs : list Response) : Exec unit :=
  fun s =>
    (mkFrame (trace s) (ticks s) rs (end_request s)
       (total_inference_count s), Normal tt).

Definition get_responses : Exec (list Response) :=
  fun s => (s, Normal (responses s)).

Definition set_end_request (n : nat) : Exec unit :=
  fun s =>
    (mkFrame (trace s) (ticks s) (responses s) n
       (total_inference_count s), Normal tt).

Definition get_end_request : Exec nat :=
  fun s => (s, Normal (end_request s)).

(** [std::size_t] arithmetic wraps modulo 2^64. *)
Definition size_t_wrap (z : Z) : Z := (z mod 2 ^ 64)%Z.

Definition add_inference_count (rows : Z) : Exec unit :=
  fun s =>
    (mkFrame (trace s) (ticks s) (responses s) (end_request s)
       (size_t_wrap (total_inference_count s + rows)), Normal tt).

Definition get_inference_count : Exec Z :=
  fun s => (s, Normal (total_inference_count s)).

Definition lift_outcome {A} (o : Outcome A) : Exec A :=
  fun s => (s, o).

Definition throw_when (o : option TritonException) : Exec unit :=
  match o with
  | Some e => throw e
  | None => ret tt
  end.

(** [requests.begin() + first, requests.begin() + second].  A range
    that leaves the vector is undefined in the source; here it is cut
    at the end of the list. *)
Definition slice {A} (first second : nat) (l : list A) : list A :=
  firstn (second - first) (skipn first l).

(** [for (auto& x : l) body]. *)
Fixpoint for_each {A} (l : list A) (body : A -> Exec unit) : Exec unit :=
  match l with
  | [] => ret tt
  | x :: rest => body x ;; for_each rest body
  end.

Definition initial_frame : Frame := mkFrame [] 0 [] 0 0%Z.

(** ** The helpers and the entry point *)

Section Execute.

Variable host : Host.

(** [std::chrono::steady_clock::now().time_since_epoch().count()]. *)
Definition now : Exec Z :=
  fun s =>
    (mkFrame (trace s) (S (ticks s)) (responses s) (end_request s)
       (total_inference_count s),
     Normal (steady_clock host (ticks s))).

(** Modelled from the spec: [construct_responses] (triton_utils) builds
    one response object per request of the list, or throws. *)
Definition construct_responses (requests : list Request)
  : Exec (list Response) :=
  throw_when (construct_responses_throws host requests) ;;
  ret (map mkResponse requests).

(** Modelled from the spec: [send_responses] (triton_utils) sends every
    response of the list once, with the error when one is given; the
    send is the terminal event of the channel and does not throw. *)
Definition send_responses (rs : list Response)
  (err : option TRITONSERVER_Error) : Exec unit :=
  emit (map (fun r => EvSend (response_request r) err) rs).

(** Modelled from the spec: [send_error_responses] (triton_utils) sends
    an error response on the channel of every request of the list. *)
Definition send_error_responses (requests : list Request)
  (err : TRITONSERVER_Error) : Exec unit :=
  emit (map (fun r => EvSend r (Some err)) requests).

(** Modelled from the spec: [release_requests] (triton_utils) releases
    every request of the list once and does not throw. *)
Definition release_requests (requests : list Request) : Exec unit :=
  emit (map EvRelease requests).

(** Modelled from the spec: [report_statistics] (triton_utils) hands the
    record to the statistics sink and throws when recording fails. *)
Definition report_statistics (s : StatRecord) : Exec unit :=
  emit [EvStat s] ;;
  throw_when (report_statistics_throws host s).

Definition log_error (msg : string) : Exec unit :=
  emit [EvLog msg].

(** Modelled from the spec: [get_output_batch] (triton_tensor_utils)
    stages the output buffer for the batch requests from the planned
    shapes, or throws. *)
Definition get_output_batch (requests : list Request)
  (rs : list Response) (target_memory : MemoryType)
  (output_shapes : list (list Z)) : Exec OutputBatch :=
  throw_when
    (get_output_batch_throws host requests target_memory output_shapes) ;;
  ret (mkOutput requests output_shapes target_memory).

Definition predict (input : Tensor) (output : OutputBatch) (proba : bool)
  : Exec unit :=
  emit [EvPredict input output proba] ;;
  throw_when (predict_throws host input output proba).

Definition sync (output : OutputBatch) : Exec unit :=
  emit [EvSync output] ;;
  throw_when (sync_throws host output).

(** Lines 194-197: [input_shape[0]], then the class count when
    [predict_proba] is set.  Indexing an empty shape is undefined in
    the source; here it reads 0. *)
Definition row_count (input_shape : list Z) : Z := hd 0%Z input_shape.

Definition output_shape_of (model_state : ModelState) (input_shape : list Z)
  : list Z :=
  row_count input_shape ::
  (if predict_proba model_state then [num_class model_state] else []).

(** Lines 190-199: the loop over [batch.shapes], which also adds every
    row count to [total_inference_count]. *)
Fixpoint plan_output_shapes (model_state : ModelState)
  (input_shapes : list (list Z)) : Exec (list (list Z)) :=
  match input_shapes with
  | [] => ret []
  | input_shape :: rest =>
      add_inference_count (row_count input_shape) ;;
      output_shapes <- plan_output_shapes model_state rest ;;
      ret (output_shape_of model_state input_shape :: output_shapes)
  end.

(** Lines 187-251: the body of the loop over the input batches.  The
    two clock readings passed to the failure report (lines 244-245) are
    arguments of one call, whose order of evaluation the language
    leaves open; they are taken left to right. *)
Definition process_batch (model_state : ModelState)
  (target_memory : MemoryType) (requests : list Request)
  (batch : InputBatch) : Exec unit :=
  batch_start_time <- now ;;
  output_shapes <- plan_output_shapes model_state (shapes batch) ;;
  let batch_requests :=
    slice (fst (extent batch)) (snd (extent batch)) requests in
  rs <- construct_responses batch_requests ;;
  set_responses rs ;;
  try_catch
    (rs <- get_responses ;;
     output_batch <-
       get_output_batch batch_requests rs target_memory output_shapes ;;
     batch_compute_start_time <- now ;;
     predict (data batch) output_batch (predict_proba model_state) ;;
     batch_compute_end_time <- now ;;
     sync output_batch ;;
     rs <- get_responses ;;
     send_responses rs None ;;
     set_responses [] ;;
     set_end_request (snd (extent batch)) ;;
     try_catch
       (batch_end_time <- now ;;
        report_statistics
          (StatRequests batch_requests true batch_start_time
             batch_compute_start_time batch_compute_end_time
             batch_end_time))
       (fun stat_err => log_error (what stat_err)) ;;
     release_requests batch_requests)
    (fun request_err =>
       rs <- get_responses ;;
       send_responses rs (Some (error request_err)) ;;
       set_responses [] ;;
       set_end_request (snd (extent batch)) ;;
       try_catch
         (compute_end_time <- now ;;
          batch_end_time <- now ;;
          report_statistics
            (StatRequests batch_requests false batch_start_time
               batch_start_time compute_end_time batch_end_time))
         (fun stat_err => log_error (what stat_err)) ;;
       release_requests batch_requests).

(** Lines 183-252: obtain the batches and run the loop; a planner that
    fails after its last yielded batch throws out of the loop. *)
Definition run_batches (model_state : ModelState)
  (target_memory : MemoryType) (requests : list Request) : Exec unit :=
  let input_batches := get_input_batches host requests target_memory in
  for_each (fst input_batches)
    (process_batch model_state target_memory requests) ;;
  throw_when (snd input_batches).

(** Lines 254-276: the handler of the planning-level scope.  It yields
    the error the function returns from inside the handler. *)
Definition abort_remaining (raw_requests : list Request)
  (all_start_time : Z) (request_err : TritonException)
  : Exec (option TRITONSERVER_Error) :=
  rs <- get_responses ;;
  send_responses rs (Some (error request_err)) ;;
  set_responses [] ;;
  end_request <- get_end_request ;;
  let requests := skipn end_request raw_requests in
  send_error_responses requests (error request_err) ;;
  all_end_time <- now ;;
  try_catch
    (report_statistics
       (StatRequests requests false all_start_time all_start_time
          all_end_time all_end_time))
    (fun stat_err => log_error (what stat_err)) ;;
  release_requests requests ;;
  ret (Some (error request_err)).

(** Lines 163-294.  [raw_requests] is the array with its
    [request_count] elements; the result is the returned error pointer,
    [None] for [nullptr]. *)
Definition execute_body (raw_requests : list Request)
  : Exec (option TRITONSERVER_Error) :=
  all_start_time <- now ;;
  try_catch
    (instance_state <- lift_outcome (get_instance_state host) ;;
     model_state <- lift_outcome (StateForModel instance_state) ;;
     target_memory <-
       lift_outcome
         (get_native_memory_for_instance host (Kind instance_state)) ;;
     let requests := raw_requests in
     set_end_request 0 ;;
     returned <-
       try_catch
         (run_batches model_state target_memory requests ;;
          ret None)
         (fun request_err =>
            abort_remaining raw_requests all_start_time request_err) ;;
     match returned with
     | Some err => ret (Some err)
     | None =>
         all_end_time <- now ;;
         count <- get_inference_count ;;
         try_catch
           (report_statistics
              (StatBatch count all_start_time all_start_time
                 all_end_time all_end_time))
           (fun stat_err => log_error (what stat_err)) ;;
         ret None
     end)
    (fun err => ret (Some (error err))).

(** The entry point run from the state the function starts in: the
    final frame and the returned error.  The outermost handler catches
    every exception, so the second branch is never taken. *)
Definition TRITONBACKEND_ModelInstanceExecute (raw_requests : list Request)
  : Frame * option TRITONSERVER_Error :=
  match execute_body raw_requests initial_frame with
  | (s, Normal r) => (s, r)
  | (s, Thrown e) => (s, Some (error e))
  end.

End Execute.

(** ** Vocabulary of the statements *)

(** Requests that received a terminal outcome, in the order sent. *)
Definition send_targets (tr : list Event) : list Request :=
  flat_map (fun ev => match ev with EvSend r _ => [r] | _ => [] end) tr.

(** Requests released, in the order released. *)
Definition release_targets (tr : list Event) : list Request :=
  flat_map (fun ev => match ev with EvRelease r => [r] | _ => [] end) tr.

(** Statistics handed to the sink, in order. *)
Definition stats_of (tr : list Event) : list StatRecord :=
  flat_map (fun ev => match ev with EvStat s => [s] | _ => [] end) tr.

Definition is_log (ev : Event) : bool :=
  match ev with EvLog _ => true | _ => false end.

(** The trace without its log lines. *)
Definition erase_logs (tr : list Event) : list Event :=
  filter (fun ev => negb (is_log ev)) tr.

Definition is_failure_stat (s : StatRecord) : bool :=
  match s with
  | StatRequests _ success _ _ _ _ => negb success
  | StatBatch _ _ _ _ _ => false
  end.

Definition stat_start (s : StatRecord) : Z :=
  match s with
  | StatRequests _ _ t _ _ _ => t
  | StatBatch _ t _ _ _ => t
  end.

Definition stat_compute_start (s : StatRecord) : Z :=
  match s with
  | StatRequests _ _ _ t _ _ => t
  | StatBatch _ _ t _ _ => t
  end.

Definition stat_compute_end (s : StatRecord) : Z :=
  match s with
  | StatRequests _ _ _ _ t _ => t
  | StatBatch _ _ _ t _ => t
  end.

Definition stat_finish (s : StatRecord) : Z :=
  match s with
  | StatRequests _ _ _ _ _ t => t
  | StatBatch _ _ _ _ t => t
  end.

(** The planner's contract (spec, data model): extents come in order,
    each starts where the previous one ended, none reaches past the
    request list, and a plan that ends without failing covers the list
    to its end. *)
Fixpoint extents_partition (start n : nat) (batches : list InputBatch)
  (complete : bool) : bool :=
  match batches with
  | [] => if complete then Nat.eqb start n else Nat.leb start n
  | b :: rest =>
      Nat.eqb (fst (extent b)) start &&
      Nat.leb start (snd (extent b)) &&
      Nat.leb (snd (extent b)) n &&
      extents_partition (snd (extent b)) n rest complete
  end.

Definition plan_well_formed (requests : list Request)
  (plan : list InputBatch * option TritonException) : bool :=
  extents_partition 0 (List.length requests) (fst plan)
    (match snd plan with None => true | Some _ => false end).

(** Row counts added to a [size_t] counter, one shape after the other. *)
Definition add_rows (count : Z) (input_shapes : list (list Z)) : Z :=
  fold_left (fun acc sh => size_t_wrap (acc + row_count sh)) input_shapes
    count.

(** Row counts of all the batches, added in the order of the plan. *)
Definition add_batches (count : Z) (batches : list InputBatch) : Z :=
  fold_left (fun acc b => add_rows acc (shapes b)) batches count.

(** ** Characterisation of one batch

    The events of the inner try scope up to the point where it either
    completes or throws, with the number of clock readings it made. *)
Section BatchRun.

Variable host : Host.

Definition compute_attempt (batch_requests : list Request)
  (target_memory : MemoryType) (output_shapes : list (list Z))
  (input : Tensor) (proba : bool)
  : list Event * nat * option TritonException :=
  match get_output_batch_throws host batch_requests target_memory
          output_shapes with
  | Some e => ([], 0, Some e)
  | None =>
      let ob := mkOutput batch_requests output_shapes target_memory in
      match predict_throws host input ob proba with
      | Some e => ([EvPredict input ob proba], 1, Some e)
      | None =>
          match sync_throws host ob with
          | Some e => ([EvPredict input ob proba; EvSync ob], 2, Some e)
          | None => ([EvPredict input ob proba; EvSync ob], 2, None)
          end
      end
  end.

(** A statistics call and, when recording throws, the log line of its
    handler. *)
Definition stat_events (s : StatRecord) : list Event :=
  EvStat s ::
  match report_statistics_throws host s with
  | Some e => [EvLog (what e)]
  | None => []
  end.

(** The events of one loop iteration that gets past
    [construct_responses], started at clock reading [t0]. *)
Definition batch_events (model_state : ModelState)
  (target_memory : MemoryType) (requests : list Request)
  (batch : InputBatch) (t0 : nat) : list Event * nat :=
  let batch_requests :=
    slice (fst (extent batch)) (snd (extent batch)) requests in
  let output_shapes := map (output_shape_of model_state) (shapes batch) in
  let clk := steady_clock host in
  match compute_attempt batch_requests target_memory output_shapes
          (data batch) (predict_proba model_state) with
  | (evs, _, None) =>
      (evs ++ map (fun r => EvSend r None) batch_requests ++
       stat_events
         (StatRequests batch_requests true (clk t0) (clk (1 + t0))
            (clk (2 + t0)) (clk (3 + t0))) ++
       map EvRelease batch_requests, 4 + t0)
  | (evs, k, Some e) =>
      (evs ++ map (fun r => EvSend r (Some (error e))) batch_requests ++
       stat_events
         (StatRequests batch_requests false (clk t0) (clk t0)
            (clk (1 + k + t0)) (clk (2 + k + t0))) ++
       map EvRelease batch_requests, 3 + k + t0)
  end.

End BatchRun.

Arguments stat_events : simpl never.
Arguments batch_events : simpl never.

(** ** The scopes around the loop *)

(** Lines 173-175: the three calls made before planning, as one
    outcome. *)
Definition setup (host : Host) : Outcome (ModelState * MemoryType) :=
  match get_instance_state host with
  | Thrown e => Thrown e
  | Normal instance_state =>
      match StateForModel instance_state with
      | Thrown e => Thrown e
      | Normal model_state =>
          match get_native_memory_for_instance host (Kind instance_state) with
          | Thrown e => Thrown e
          | Normal target_memory => Normal (model_state, target_memory)
          end
      end
  end.

(** The frame in which the loop starts: the clock was read once. *)
Definition loop_entry : Frame := mkFrame [] 1 [] 0 0%Z.

(** The loop of the invocation, run from [loop_entry]. *)
Definition batch_loop (host : Host) (model_state : ModelState)
  (target_memory : MemoryType) (requests : list Request)
  (batches : list InputBatch) : Frame * Outcome unit :=
  for_each batches (process_batch host model_state target_memory requests)
    loop_entry.

(** Events of the planning-level handler entered in frame [s]. *)
Definition abort_events (host : Host) (raw_requests : list Request)
  (s : Frame) (e : TritonException) : list Event :=
  let remaining := skipn (end_request s) raw_requests in
  let t0 := steady_clock host 0 in
  let t1 := steady_clock host (ticks s) in
  map (fun r => EvSend (response_request r) (Some (error e))) (responses s) ++
  map (fun r => EvSend r (Some (error e))) remaining ++
  stat_events host (StatRequests remaining false t0 t0 t1 t1) ++
  map EvRelease remaining.

(** Events after a loop that completed in frame [s]. *)
Definition finish_events (host : Host) (s : Frame) : list Event :=
  let t0 := steady_clock host 0 in
  let t1 := steady_clock host (ticks s) in
  stat_events host (StatBatch (total_inference_count s) t0 t0 t1 t1).

(** The same host with another statistics sink, another planner. *)
Definition with_statistics_sink (host : Host)
  (sink : StatRecord -> option TritonException) : Host :=
  mkHost (get_instance_state host) (get_native_memory_for_instance host)
    (get_input_batches host) (construct_responses_throws host)
    (get_output_batch_throws host) (predict_throws host) (sync_throws host)
    sink (steady_clock host).

Definition with_planner (host : Host)
  (planner :
     list Request -> MemoryType -> list InputBatch * option TritonException)
  : Host :=
  mkHost (get_instance_state host) (get_native_memory_for_instance host)
    planner (construct_responses_throws host)
    (get_output_batch_throws host) (predict_throws host) (sync_throws host)
    (report_statistics_throws host) (steady_clock host).

(** Log lines of a trace, in order. *)
Definition logs_of (tr : list Event) : list string :=
  flat_map (fun ev => match ev with EvLog m => [m] | _ => [] end) tr.

(** The log lines owed to the statistics calls of a trace: one per call
    whose recording throws. *)
Definition owed_logs (host : Host) (tr : list Event) : list string :=
  flat_map
    (fun s =>
       match report_statistics_throws host s with
       | Some e => [what e]
       | None => []
       end)
    (stats_of tr).

(** [construct_responses] succeeds for every batch of the list. *)
Definition responses_constructible (host : Host) (requests : list Request)
  (batches : list InputBatch) : Prop :=
  forall b, In b batches ->
    construct_responses_throws host
      (slice (fst (extent b)) (snd (extent b)) requests) = None.

(** A record of the per-request overload. *)
Definition per_request_stat (st : StatRecord) : Prop :=
  exists l ok t0 t1 t2 t3, st = StatRequests l ok t0 t1 t2 t3.

(** A failure record whose compute interval starts with the unit. *)
Definition compute_starts_with_unit (st : StatRecord) : Prop :=
  is_failure_stat st = true -> stat_compute_start st = stat_start st.

(** A statistics sink that never throws. *)
Definition reliable_sink (st : StatRecord) : option TritonException := None.

(** Two frames that differ by log lines only. *)
Definition same_but_logs (s s0 : Frame) : Prop :=
  erase_logs (trace s) = trace s0 /\
  ticks s = ticks s0 /\
  responses s = responses s0 /\
  end_request s = end_request s0 /\
  total_inference_count s = total_inference_count s0.

(** Every success response of the trace comes after a prediction call
    and the sync of the output batch it was staged in, with nothing in
    between but success responses to earlier requests of that batch. *)
Definition sync_precedes_sends (tr : list Event) : Prop :=
  forall pre r post,
    tr = pre ++ EvSend r None :: post ->
    exists before input output proba sent rest,
      pre =
        before ++ [EvPredict input output proba; EvSync output] ++
        map (fun q => EvSend q None) sent /\
      out_requests output = sent ++ r :: rest.

(** ** Properties as the specification words them *)

(** Every request of the list has one terminal outcome and one release
    in the trace of the invocation: a handle is answered, and released,
    once for each place it has in the list. *)
Definition exactly_once (host : Host) (raw_requests : list Request) : Prop :=
  let tr :=
    trace (fst (TRITONBACKEND_ModelInstanceExecute host raw_requests)) in
  forall r, In r raw_requests ->
    count_occ Nat.eq_dec (send_targets tr) r =
      count_occ Nat.eq_dec raw_requests r /\
    count_occ Nat.eq_dec (release_targets tr) r =
      count_occ Nat.eq_dec raw_requests r.

(** Rows of the batches whose compute step succeeds. *)
Definition successful_rows (host : Host) (model_state : ModelState)
  (target_memory : MemoryType) (requests : list Request)
  (batches : list InputBatch) : Z :=
  fold_left
    (fun acc b =>
       match compute_attempt host
               (slice (fst (extent b)) (snd (extent b)) requests)
               target_memory
               (map (output_shape_of model_state) (shapes b)) (data b)
               (predict_proba model_state) with
       | (_, _, None) => add_rows acc (shapes b)
       | (_, _, Some _) => acc
       end)
    batches 0%Z.

(** The aggregate statistic counts the successful rows only. *)
Definition aggregate_counts_successes (host : Host)
  (model_state : ModelState) (target_memory : MemoryType)
  (raw_requests : list Request) : Prop :=
  let batches := fst (get_input_batches host raw_requests target_memory) in
  let tr :=
    trace (fst (TRITONBACKEND_ModelInstanceExecute host raw_requests)) in
  exists t0 t1,
    In (StatBatch
          (successful_rows host model_state target_memory raw_requests
             batches) t0 t0 t1 t1)
       (stats_of tr).

(** ** Concrete hosts *)

Module Scenario.

Local Open Scope string_scope.

Definition compute_error : TritonException :=
  mkException (mkError 1 "prediction failed").

Definition planning_error : TritonException :=
  mkException (mkError 2 "malformed input tensor").

Definition setup_error : TritonException :=
  mkException (mkError 3 "instance kind must be set to either GPU or CPU").

Definition stat_error : TritonException :=
  mkException (mkError 4 "statistics sink unavailable").

Definition regressor : ModelState := mkModelState false 1%Z.

Definition classifier : ModelState := mkModelState true 3%Z.

Definition clock (n : nat) : Z := Z.of_nat (100 + n).

(** The scenario of the specification: rows 4, 1 and 8, two batches
    with extents [0,2) and [2,3); the prediction on the second batch
    (tensor 1) fails. *)
Definition two_batches : Host :=
  mkHost
    (Normal (mkInstanceState (Normal regressor) KIND_GPU))
    (fun _ => Normal MEMORY_GPU)
    (fun _ _ =>
       ([mkBatch 0 [[4%Z; 2%Z]; [1%Z; 2%Z]] (0, 2);
         mkBatch 1 [[8%Z; 2%Z]] (2, 3)], None))
    (fun _ => None)
    (fun _ _ _ => None)
    (fun input _ _ => if Nat.eqb input 1 then Some compute_error else None)
    (fun _ => None)
    (fun _ => None)
    clock.

(** The same host whose planner fails after its first batch. *)
Definition planner_fails_second : Host :=
  with_planner two_batches
    (fun _ _ =>
       ([mkBatch 0 [[4%Z; 2%Z]; [1%Z; 2%Z]] (0, 2)], Some planning_error)).

(** One request of four rows in one batch whose prediction fails. *)
Definition one_failing_batch : Host :=
  mkHost
    (Normal (mkInstanceState (Normal regressor) KIND_GPU))
    (fun _ => Normal MEMORY_GPU)
    (fun _ _ => ([mkBatch 1 [[4%Z; 2%Z]] (0, 1)], None))
    (fun _ => None)
    (fun _ _ _ => None)
    (fun _ _ _ => Some compute_error)
    (fun _ => None)
    (fun _ => None)
    clock.

(** An instance of kind MODEL: resolving its memory type throws. *)
Definition bad_instance_kind : Host :=
  mkHost
    (Normal (mkInstanceState (Normal regressor) KIND_MODEL))
    (fun k =>
       match k with
       | KIND_CPU => Normal MEMORY_CPU
       | KIND_GPU => Normal MEMORY_GPU
       | _ => Thrown setup_error
       end)
    (fun _ _ => ([mkBatch 0 [[4%Z; 2%Z]] (0, 1)], None))
    (fun _ => None)
    (fun _ _ _ => None)
    (fun _ _ _ => None)
    (fun _ => None)
    (fun _ => None)
    clock.

(** A planner that yields nothing for an empty request list. *)
Definition no_batches : Host :=
  with_planner two_batches (fun _ _ => ([], None)).

End Scenario.

(** ** More vocabulary for the execute path *)

(** The steady clock never goes back. *)
Definition monotone_clock (host : Host) : Prop :=
  forall a b, a <= b -> (steady_clock host a <= steady_clock host b)%Z.

(** The four timestamps of a record are in order.  The two last
    readings of a failure record are arguments of one call, so only a
    success or aggregate record is asked to end after its compute
    interval. *)
Definition well_timed (st : StatRecord) : Prop :=
  (stat_start st <= stat_compute_start st)%Z /\
  (stat_compute_start st <= stat_compute_end st)%Z /\
  (stat_compute_start st <= stat_finish st)%Z /\
  (is_failure_stat st = false ->
   (stat_compute_end st <= stat_finish st)%Z).

(** At every point of the trace, the requests released so far have all
    been sent their outcome. *)
Definition sent_before_released (tr : list Event) : Prop :=
  forall p q, tr = p ++ q -> incl (release_targets p) (send_targets p).

(** Sum of the row counts of a batch, of a plan. *)
Definition sum_rows (input_shapes : list (list Z)) : Z :=
  fold_right (fun sh acc => (row_count sh + acc)%Z) 0%Z input_shapes.

Definition total_rows (batches : list InputBatch) : Z :=
  fold_right (fun b acc => (sum_rows (shapes b) + acc)%Z) 0%Z batches.

(** A prediction call made for batch [b] of the plan: the tensor of the
    batch, the flag of the model, and an output batch staged in the
    target memory for the requests of the extent with the planned
    shapes. *)
Definition call_for_batch (model_state : ModelState)
  (target_memory : MemoryType) (requests : list Request) (b : InputBatch)
  (input : Tensor) (output : OutputBatch) (proba : bool) : Prop :=
  input = data b /\
  proba = predict_proba model_state /\
  out_memory output = target_memory /\
  out_requests output =
    slice (fst (extent b)) (snd (extent b)) requests /\
  out_shapes output = map (output_shape_of model_state) (shapes b).

(** The outcome sent to each request, as success or failure, in the
    order sent. *)
Definition sent_outcomes (tr : list Event) : list (Request * bool) :=
  flat_map
    (fun ev =>
       match ev with
       | EvSend r None => [(r, true)]
       | EvSend r (Some _) => [(r, false)]
       | _ => []
       end)
    tr.

(** The outcome reported to the statistics sink for each request named
    by a per-request record, in the order reported. *)
Definition reported_outcomes (tr : list Event) : list (Request * bool) :=
  flat_map
    (fun ev =>
       match ev with
       | EvStat (StatRequests l ok _ _ _ _) => map (fun r => (r, ok)) l
       | _ => []
       end)
    tr.

(** ** The lifecycle entry points (lines 45-161)

    The five functions around the execute path are straight-line code
    in one try scope each.  What they do to the server is a list of
    events; the calls that may throw are given by their outcomes. *)

Inductive LifecycleEvent :=
| EvLogInfo (msg : string)
| EvSetModelState (st : ModelState)
| EvUnloadModel (st : ModelState)
| EvDeleteModelState (st : ModelState)
| EvSetInstanceState (inst : ModelInstanceState)
| EvUnloadFILModel (inst : ModelInstanceState)
| EvDeleteInstanceState (inst : ModelInstanceState).

(** The server side of the lifecycle calls.  A state pointer handed
    back by the server may be null ([None]).  The string of an instance
    kind is the server library's. *)
Record Server := mkServer {
  get_backend_name : Outcome string;
  check_backend_version : Outcome bool;
  get_model_name : Outcome string;
  get_model_version : Outcome N;
  ModelState_Create : Outcome ModelState;
  set_model_state_throws : ModelState -> option TritonException;
  get_model_state : Outcome (option ModelState);
  UnloadModel_throws : ModelState -> option TritonException;
  get_model_instance_name : Outcome string;
  get_device_id : Outcome Z;
  get_instance_kind : Outcome InstanceKind;
  TRITONSERVER_InstanceGroupKindString : InstanceKind -> string;
  get_instance_model_state : Outcome (option ModelState);
  ModelInstanceState_Create : option ModelState -> Outcome ModelInstanceState;
  set_instance_state_throws : ModelInstanceState -> option TritonException;
  TRITONBACKEND_ModelInstanceState : Outcome (option ModelInstanceState);
  UnloadFILModel_throws : ModelInstanceState -> option TritonException
}.

(** Events written so far and the outcome: a writer with exceptions. *)
Definition Life (A : Type) : Type := list LifecycleEvent * Outcome A.

Definition life_ret {A} (a : A) : Life A := ([], Normal a).

Definition life_bind {A B} (m : Life A) (k : A -> Life B) : Life B :=
  match m with
  | (evs, Normal a) =>
      match k a with
      | (evs', r) => (evs ++ evs', r)
      end
  | (evs, Thrown e) => (evs, Thrown e)
  end.

Definition life_lift {A} (o : Outcome A) : Life A := ([], o).

Definition life_emit (ev : LifecycleEvent) : Life unit := ([ev], Normal tt).

Definition life_throw_when (o : option TritonException) : Life unit :=
  match o with
  | Some e => ([], Thrown e)
  | None => ([], Normal tt)
  end.

Declare Scope life_scope.
Delimit Scope life_scope with life.
Notation "x <- m ;; k" := (life_bind m (fun x => k))
  (at level 61, m at next level, right associativity) : life_scope.
Notation "m ;; k" := (life_bind m (fun _ => k))
  (at level 61, right associativity) : life_scope.

(** [try { body } catch (TritonException& err) { return err.error(); }]
    where the body yields the error it returns, [None] for falling
    through to [return nullptr]. *)
Definition run_entry (body : Life (option TRITONSERVER_Error))
  : list LifecycleEvent * option TRITONSERVER_Error :=
  match body with
  | (evs, Normal r) => (evs, r)
  | (evs, Thrown e) => (evs, Some (error e))
  end.

(** The value of [TRITONSERVER_ERROR_UNSUPPORTED] in the server's
    enumeration of error codes. *)
Definition TRITONSERVER_ERROR_UNSUPPORTED : nat := 5.

(** [std::to_string] of a [uint64_t] and of an [int32_t]. *)
Definition to_string_uint64 (n : N) : string :=
  NilZero.string_of_uint (N.to_uint n).

Definition to_string_int32 (z : Z) : string :=
  NilZero.string_of_int (Z.to_int z).

Section Lifecycle.

Variable srv : Server.

Local Open Scope life_scope.
Local Open Scope string_scope.

Definition log_info (msg : string) : Life unit := life_emit (EvLogInfo msg).

Definition set_model_state (st : ModelState) : Life unit :=
  life_emit (EvSetModelState st) ;;
  life_throw_when (set_model_state_throws srv st).

Definition UnloadModel (st : ModelState) : Life unit :=
  life_emit (EvUnloadModel st) ;;
  life_throw_when (UnloadModel_throws srv st).

Definition set_instance_state (inst : ModelInstanceState) : Life unit :=
  life_emit (EvSetInstanceState inst) ;;
  life_throw_when (set_instance_state_throws srv inst).

Definition UnloadFILModel (inst : ModelInstanceState) : Life unit :=
  life_emit (EvUnloadFILModel inst) ;;
  life_throw_when (UnloadFILModel_throws srv inst).

(** Lines 45-65. *)
Definition TRITONBACKEND_Initialize
  : list LifecycleEvent * option TRITONSERVER_Error :=
  run_entry
    (name <- life_lift (get_backend_name srv) ;;
     log_info ("TRITONBACKEND_Initialize: " ++ name) ;;
     supported <- life_lift (check_backend_version srv) ;;
     if negb supported
     then
       life_ret
         (Some
            (mkError TRITONSERVER_ERROR_UNSUPPORTED
               "triton backend API version does not support this backend"))
     else life_ret None).

(** Lines 67-88.  The argument of [set_model_state] is evaluated before
    the call. *)
Definition TRITONBACKEND_ModelInitialize
  : list LifecycleEvent * option TRITONSERVER_Error :=
  run_entry
    (name <- life_lift (get_model_name srv) ;;
     version <- life_lift (get_model_version srv) ;;
     log_info
       ("TRITONBACKEND_ModelInitialize: " ++ name ++ " (version " ++
        to_string_uint64 version ++ ")") ;;
     st <- life_lift (ModelState_Create srv) ;;
     set_model_state st ;;
     life_ret None).

(** Lines 90-109.  [delete] of a null pointer does nothing. *)
Definition TRITONBACKEND_ModelFinalize
  : list LifecycleEvent * option TRITONSERVER_Error :=
  run_entry
    (model_state <- life_lift (get_model_state srv) ;;
     match model_state with
     | Some st => UnloadModel st
     | None => life_ret tt
     end ;;
     log_info "TRITONBACKEND_ModelFinalize: delete model state" ;;
     match model_state with
     | Some st => life_emit (EvDeleteModelState st)
     | None => life_ret tt
     end ;;
     life_ret None).

(** Lines 111-135. *)
Definition TRITONBACKEND_ModelInstanceInitialize
  : list LifecycleEvent * option TRITONSERVER_Error :=
  run_entry
    (name <- life_lift (get_model_instance_name srv) ;;
     device_id <- life_lift (get_device_id srv) ;;
     kind <- life_lift (get_instance_kind srv) ;;
     log_info
       ("TRITONBACKEND_ModelInstanceInitialize: " ++ name ++ " (" ++
        TRITONSERVER_InstanceGroupKindString srv kind ++ " device " ++
        to_string_int32 device_id ++ ")") ;;
     model_state <- life_lift (get_instance_model_state srv) ;;
     inst <- life_lift (ModelInstanceState_Create srv model_state) ;;
     set_instance_state inst ;;
     life_ret None).

(** Lines 137-161. *)
Definition TRITONBACKEND_ModelInstanceFinalize
  : list LifecycleEvent * option TRITONSERVER_Error :=
  run_entry
    (instance_state <- life_lift (TRITONBACKEND_ModelInstanceState srv) ;;
     match instance_state with
     | Some inst =>
         UnloadFILModel inst ;;
         log_info
           "TRITONBACKEND_ModelInstanceFinalize: delete instance state" ;;
         life_emit (EvDeleteInstanceState inst)
     | None => life_ret tt
     end ;;
     life_ret None).

End Lifecycle.

(** ** Concrete servers *)

Module ServerScenario.

Local Open Scope string_scope.

Definition loaded : ModelState := mkModelState true 3%Z.

Definition instance : ModelInstanceState :=
  mkInstanceState (Normal loaded) KIND_GPU.

Definition unload_error : TritonException :=
  mkException (mkError 1 "unload failed").

Definition kind_string (k : InstanceKind) : string :=
  match k with
  | KIND_AUTO => "KIND_AUTO"
  | KIND_CPU => "KIND_CPU"
  | KIND_GPU => "KIND_GPU"
  | KIND_MODEL => "KIND_MODEL"
  end.

(** A server on which every lifecycle call succeeds. *)
Definition healthy : Server :=
  mkServer (Normal "fil") (Normal true) (Normal "xgboost_model")
    (Normal 1%N) (Normal loaded) (fun _ => None) (Normal (Some loaded))
    (fun _ => None) (Normal "xgboost_model_0") (Normal 0%Z)
    (Normal KIND_GPU) kind_string (Normal (Some loaded))
    (fun _ => Normal instance) (fun _ => None) (Normal (Some instance))
    (fun _ => None).

(** A server whose backend API version is not supported. *)
Definition old_api : Server :=
  mkServer (Normal "fil") (Normal false) (Normal "xgboost_model")
    (Normal 1%N) (Normal loaded) (fun _ => None) (Normal (Some loaded))
    (fun _ => None) (Normal "xgboost_model_0") (Normal 0%Z)
    (Normal KIND_GPU) kind_string (Normal (Some loaded))
    (fun _ => Normal instance) (fun _ => None) (Normal (Some instance))
    (fun _ => None).

(** A server on which unloading throws. *)
Definition unload_fails : Server :=
  mkServer (Normal "fil") (Normal true) (Normal "xgboost_model")
    (Normal 1%N) (Normal loaded) (fun _ => None) (Normal (Some loaded))
    (fun _ => Some unload_error) (Normal "xgboost_model_0") (Normal 0%Z)
    (Normal KIND_GPU) kind_string (Normal (Some loaded))
    (fun _ => Normal instance) (fun _ => None) (Normal (Some instance))
    (fun _ => Some unload_error).

(** A server that hands back null state pointers. *)
Definition no_state : Server :=
  mkServer (Normal "fil") (Normal true) (Normal "xgboost_model")
    (Normal 1%N) (Normal loaded) (fun _ => None) (Normal None)
    (fun _ => None) (Normal "xgboost_model_0") (Normal 0%Z)
    (Normal KIND_GPU) kind_string (Normal None)
    (fun _ => Normal instance) (fun _ => None) (Normal None)
    (fun _ => None).

End ServerScenario.

(** ** Run lemmas *)

Section RunLemmas.

Variable host : Host.

Lemma plan_output_shapes_run (model_state : ModelState)
  (input_shapes : list (list Z)) (s : Frame) :
  plan_output_shapes model_state input_shapes s =
  (mkFrame (trace s) (ticks s) (responses s) (end_request s)
     (add_rows (total_inference_count s) input_shapes),
   Normal (map (output_shape_of model_state) input_shapes)).
Proof.
  revert s. induction input_shapes as [|sh rest IH]; intros [tr tk rs er tc].
  - reflexivity.
  - simpl. unfold bind, add_inference_count. simpl.
    rewrite IH. reflexivity.
Qed.

Lemma map_response_request_err (requests : list Request)
  (err : option TRITONSERVER_Error) :
  map (fun r => EvSend (response_request r) err) (map mkResponse requests) =
  map (fun r => EvSend r err) requests.
Proof. rewrite map_map. reflexivity. Qed.

(** One iteration started with no pending responses: either
    [construct_responses] throws and nothing was sent, or the iteration
    completes with the events of [batch_events]. *)
Lemma process_batch_run (model_state : ModelState)
  (target_memory : MemoryType) (requests : list Request)
  (batch : InputBatch) (s : Frame) :
  responses s = [] ->
  process_batch host model_state target_memory requests batch s =
  match construct_responses_throws host
          (slice (fst (extent batch)) (snd (extent batch)) requests) with
  | Some e =>
      (mkFrame (trace s) (S (ticks s)) [] (end_request s)
         (add_rows (total_inference_count s) (shapes batch)),
       Thrown e)
  | None =>
      let r := batch_events host model_state target_memory requests batch
                 (ticks s) in
      (mkFrame (trace s ++ fst r) (snd r) [] (snd (extent batch))
         (add_rows (total_inference_count s) (shapes batch)),
       Normal tt)
  end.
Proof.
  destruct s as [tr tk rs er tc]. simpl. intros ->.
  unfold process_batch, bind at 1. simpl.
  unfold bind at 1. rewrite plan_output_shapes_run. simpl.
  unfold batch_events, compute_attempt, stat_events.
  set (breqs := slice (fst (extent batch)) (snd (extent batch)) requests).
  set (osh := map (output_shape_of model_state) (shapes batch)).
  unfold bind, try_catch, construct_responses, get_output_batch, predict,
    sync, report_statistics, log_error, send_responses, release_requests,
    throw_when, throw, ret, emit, emit_all, set_responses, get_responses,
    set_end_request, now.
  simpl.
  destruct (construct_responses_throws host breqs); simpl; [reflexivity|].
  destruct (get_output_batch_throws host breqs target_memory osh); simpl.
  { rewrite map_response_request_err.
    destruct (report_statistics_throws host _); simpl;
      repeat rewrite <- app_assoc; reflexivity. }
  destruct (predict_throws host _ _ _); simpl.
  { rewrite map_response_request_err.
    destruct (report_statistics_throws host _); simpl;
      repeat rewrite <- app_assoc; reflexivity. }
  destruct (sync_throws host _); simpl.
  { rewrite map_response_request_err.
    destruct (report_statistics_throws host _); simpl;
      repeat rewrite <- app_assoc; reflexivity. }
  rewrite map_response_request_err.
  destruct (report_statistics_throws host _); simpl;
    repeat rewrite <- app_assoc; reflexivity.
Qed.

Lemma for_each_app {A} (l1 l2 : list A) (body : A -> Exec unit)
  (s : Frame) :
  for_each (l1 ++ l2) body s =
  match for_each l1 body s with
  | (s', Normal _) => for_each l2 body s'
  | (s', Thrown e) => (s', Thrown e)
  end.
Proof.
  revert s. induction l1 as [|x l1 IH]; intros s; simpl.
  - reflexivity.
  - unfold bind. destruct (body x s) as [s' [[]|e]]; [apply IH|reflexivity].
Qed.

(** An invocation whose setup throws does nothing but read the clock. *)
Lemma execute_setup_thrown (raw_requests : list Request)
  (e : TritonException) :
  setup host = Thrown e ->
  TRITONBACKEND_ModelInstanceExecute host raw_requests =
  (mkFrame [] 1 [] 0 0%Z, Some (error e)).
Proof.
  unfold setup, TRITONBACKEND_ModelInstanceExecute, execute_body.
  unfold bind, try_catch, lift_outcome, now, ret. simpl.
  destruct (get_instance_state host) as [inst|e1]; simpl.
  - destruct (StateForModel inst) as [ms|e2]; simpl.
    + destruct (get_native_memory_for_instance host (Kind inst))
        as [mem|e3]; simpl.
      * discriminate.
      * intros [= ->]. reflexivity.
    + intros [= ->]. reflexivity.
  - intros [= ->]. reflexivity.
Qed.

(** An invocation whose setup succeeds: the loop, then either the
    aggregate statistic or the planning-level handler. *)
Lemma execute_run (raw_requests : list Request) (model_state : ModelState)
  (target_memory : MemoryType) :
  setup host = Normal (model_state, target_memory) ->
  TRITONBACKEND_ModelInstanceExecute host raw_requests =
  let plan := get_input_batches host raw_requests target_memory in
  let aborted s e :=
    (mkFrame (trace s ++ abort_events host raw_requests s e) (S (ticks s)) []
       (end_request s) (total_inference_count s), Some (error e)) in
  match batch_loop host model_state target_memory raw_requests (fst plan) with
  | (s, Normal _) =>
      match snd plan with
      | None =>
          (mkFrame (trace s ++ finish_events host s) (S (ticks s))
             (responses s) (end_request s) (total_inference_count s), None)
      | Some e => aborted s e
      end
  | (s, Thrown e) => aborted s e
  end.
Proof.
  unfold setup, TRITONBACKEND_ModelInstanceExecute, execute_body.
  unfold bind at 1, try_catch at 1, now at 1. simpl.
  unfold bind at 1, lift_outcome at 1.
  destruct (get_instance_state host) as [inst|e1]; [|discriminate].
  unfold bind at 1, lift_outcome at 1.
  destruct (StateForModel inst) as [ms|e2]; [|discriminate].
  unfold bind at 1, lift_outcome at 1.
  destruct (get_native_memory_for_instance host (Kind inst)) as [mem|e3];
    [|discriminate].
  intros [= -> ->].
  unfold bind at 1, set_end_request at 1. simpl.
  unfold bind at 1, try_catch at 1, bind at 1, run_batches, bind at 1.
  unfold batch_loop, loop_entry.
  destruct (get_input_batches host raw_requests target_memory)
    as [batches perr]; simpl.
  destruct (for_each batches _ _) as [s [[]|e]].
  - destruct perr as [e|]; simpl.
    + unfold abort_remaining, abort_events, stat_events.
      unfold bind, try_catch, report_statistics, log_error, send_responses,
        send_error_responses, release_requests, throw_when, throw, ret, emit,
        emit_all, set_responses, get_responses, get_end_request, now.
      simpl.
      destruct (report_statistics_throws host _); simpl;
        repeat rewrite <- app_assoc; reflexivity.
    + unfold finish_events, stat_events.
      unfold bind, try_catch, report_statistics, log_error, throw_when,
        throw, ret, emit, emit_all, get_inference_count, now.
      simpl.
      destruct (report_statistics_throws host _); simpl;
        repeat rewrite <- app_assoc; reflexivity.
  - unfold abort_remaining, abort_events, stat_events.
    unfold bind, try_catch, report_statistics, log_error, send_responses,
      send_error_responses, release_requests, throw_when, throw, ret, emit,
      emit_all, set_responses, get_responses, get_end_request, now.
    simpl.
    destruct (report_statistics_throws host _); simpl;
      repeat rewrite <- app_assoc; reflexivity.
Qed.

(** The loop, one iteration at a time. *)
Lemma for_each_batch_cons (model_state : ModelState)
  (target_memory : MemoryType) (requests : list Request)
  (b : InputBatch) (rest : list InputBatch) (s : Frame) :
  responses s = [] ->
  for_each (b :: rest)
    (process_batch host model_state target_memory requests) s =
  match construct_responses_throws host
          (slice (fst (extent b)) (snd (extent b)) requests) with
  | Some e =>
      (mkFrame (trace s) (S (ticks s)) [] (end_request s)
         (add_rows (total_inference_count s) (shapes b)),
       Thrown e)
  | None =>
      let r := batch_events host model_state target_memory requests b
                 (ticks s) in
      for_each rest (process_batch host model_state target_memory requests)
        (mkFrame (trace s ++ fst r) (snd r) [] (snd (extent b))
           (add_rows (total_inference_count s) (shapes b)))
  end.
Proof.
  intros Hrs. simpl. unfold bind at 1.
  rewrite process_batch_run by exact Hrs.
  destruct (construct_responses_throws host _); reflexivity.
Qed.

(** What the events of one iteration project to. *)
Lemma send_targets_app (t1 t2 : list Event) :
  send_targets (t1 ++ t2) = send_targets t1 ++ send_targets t2.
Proof. apply flat_map_app. Qed.

Lemma release_targets_app (t1 t2 : list Event) :
  release_targets (t1 ++ t2) = release_targets t1 ++ release_targets t2.
Proof. apply flat_map_app. Qed.

Lemma stats_of_app (t1 t2 : list Event) :
  stats_of (t1 ++ t2) = stats_of t1 ++ stats_of t2.
Proof. apply flat_map_app. Qed.

Lemma logs_of_app (t1 t2 : list Event) :
  logs_of (t1 ++ t2) = logs_of t1 ++ logs_of t2.
Proof. apply flat_map_app. Qed.

Lemma erase_logs_app (t1 t2 : list Event) :
  erase_logs (t1 ++ t2) = erase_logs t1 ++ erase_logs t2.
Proof. apply filter_app. Qed.

Lemma send_targets_sends (requests : list Request)
  (err : option TRITONSERVER_Error) :
  send_targets (map (fun r => EvSend r err) requests) = requests.
Proof.
  induction requests as [|r l IH]; simpl; [reflexivity|].
  f_equal. exact IH.
Qed.

Lemma send_targets_releases (requests : list Request) :
  send_targets (map EvRelease requests) = [].
Proof. induction requests as [|r l IH]; simpl; auto. Qed.

Lemma release_targets_sends (requests : list Request)
  (err : option TRITONSERVER_Error) :
  release_targets (map (fun r => EvSend r err) requests) = [].
Proof. induction requests as [|r l IH]; simpl; auto. Qed.

Lemma release_targets_releases (requests : list Request) :
  release_targets (map EvRelease requests) = requests.
Proof.
  induction requests as [|r l IH]; simpl; [reflexivity|].
  f_equal. exact IH.
Qed.

Lemma send_targets_stat_events (st : StatRecord) :
  send_targets (stat_events host st) = [].
Proof.
  unfold stat_events. destruct (report_statistics_throws host st);
    reflexivity.
Qed.

Lemma release_targets_stat_events (st : StatRecord) :
  release_targets (stat_events host st) = [].
Proof.
  unfold stat_events. destruct (report_statistics_throws host st);
    reflexivity.
Qed.

Lemma compute_attempt_cases (batch_requests : list Request)
  (target_memory : MemoryType) (output_shapes : list (list Z))
  (input : Tensor) (proba : bool) :
  let ob := mkOutput batch_requests output_shapes target_memory in
  let r := compute_attempt host batch_requests target_memory output_shapes
             input proba in
  (fst (fst r) = [] /\ snd (fst r) = 0 /\ snd r <> None) \/
  (fst (fst r) = [EvPredict input ob proba] /\ snd (fst r) = 1 /\
   snd r <> None) \/
  (fst (fst r) = [EvPredict input ob proba; EvSync ob] /\ snd (fst r) = 2).
Proof.
  unfold compute_attempt. simpl.
  destruct (get_output_batch_throws host _ _ _).
  { left. repeat split. discriminate. }
  destruct (predict_throws host _ _ _).
  { right. left. repeat split. discriminate. }
  right. right. destruct (sync_throws host _); split; reflexivity.
Qed.

Lemma batch_events_send_targets (model_state : ModelState)
  (target_memory : MemoryType) (requests : list Request)
  (b : InputBatch) (t0 : nat) :
  send_targets
    (fst (batch_events host model_state target_memory requests b t0)) =
  slice (fst (extent b)) (snd (extent b)) requests.
Proof.
  unfold batch_events.
  set (breqs := slice (fst (extent b)) (snd (extent b)) requests).
  pose proof (compute_attempt_cases breqs target_memory
                (map (output_shape_of model_state) (shapes b)) (data b)
                (predict_proba model_state)) as H.
  simpl in H.
  destruct (compute_attempt host breqs target_memory _ _ _)
    as [[evs k] [e|]]; cbn [fst snd] in *;
    repeat rewrite send_targets_app;
    rewrite send_targets_sends, send_targets_stat_events,
      send_targets_releases, app_nil_r;
    destruct H as [(-> & _)|[(-> & _)|(-> & _)]]; reflexivity.
Qed.

Lemma batch_events_release_targets (model_state : ModelState)
  (target_memory : MemoryType) (requests : list Request)
  (b : InputBatch) (t0 : nat) :
  release_targets
    (fst (batch_events host model_state target_memory requests b t0)) =
  slice (fst (extent b)) (snd (extent b)) requests.
Proof.
  unfold batch_events.
  set (breqs := slice (fst (extent b)) (snd (extent b)) requests).
  pose proof (compute_attempt_cases breqs target_memory
                (map (output_shape_of model_state) (shapes b)) (data b)
                (predict_proba model_state)) as H.
  simpl in H.
  destruct (compute_attempt host breqs target_memory _ _ _)
    as [[evs k] [e|]]; cbn [fst snd] in *;
    repeat rewrite release_targets_app;
    rewrite release_targets_sends, release_targets_stat_events,
      release_targets_releases;
    destruct H as [(-> & _)|[(-> & _)|(-> & _)]]; reflexivity.
Qed.

End RunLemmas.

(** ** Setup failures, empty plans and output shapes *)

Lemma stats_of_stat_events (host : Host) (st : StatRecord) :
  stats_of (stat_events host st) = [st].
Proof.
  unfold stat_events. destruct (report_statistics_throws host st);
    reflexivity.
Qed.

(** C8: when an exception is raised while obtaining the instance state,
    the model state or the target memory space, the entry point returns
    the error of that exception and its trace is empty: no response is
    sent on any channel and no request is released. *)
Theorem setup_exception_returns_untouched (host : Host)
  (raw_requests : list Request) (e : TritonException) :
  (get_instance_state host = Thrown e \/
   (exists inst,
      get_instance_state host = Normal inst /\
      StateForModel inst = Thrown e) \/
   (exists inst model_state,
      get_instance_state host = Normal inst /\
      StateForModel inst = Normal model_state /\
      get_native_memory_for_instance host (Kind inst) = Thrown e)) ->
  let r := TRITONBACKEND_ModelInstanceExecute host raw_requests in
  snd r = Some (error e) /\
  trace (fst r) = [] /\
  send_targets (trace (fst r)) = [] /\
  release_targets (trace (fst r)) = [].
Proof.
  intros H.
  assert (Hs : setup host = Thrown e).
  { unfold setup.
    destruct H as [H|[(inst & H1 & H2)|(inst & ms & H1 & H2 & H3)]].
    - rewrite H. reflexivity.
    - rewrite H1, H2. reflexivity.
    - rewrite H1, H2, H3. reflexivity. }
  cbv zeta. rewrite (@execute_setup_thrown host raw_requests e Hs). simpl.
  repeat split.
Qed.

Lemma setup_exception_returns_untouched_witness :
  let r := TRITONBACKEND_ModelInstanceExecute Scenario.bad_instance_kind
             [10; 11] in
  snd r = Some (error Scenario.setup_error) /\
  trace (fst r) = [] /\
  send_targets (trace (fst r)) = [] /\
  release_targets (trace (fst r)) = [].
Proof.
  apply (@setup_exception_returns_untouched Scenario.bad_instance_kind
           [10; 11] Scenario.setup_error).
  right. right.
  exists (mkInstanceState (Normal Scenario.regressor) KIND_MODEL).
  exists Scenario.regressor.
  repeat split; reflexivity.
Defined.

(** C9: when the setup succeeds and the planner yields no batch and
    does not fail, the entry point returns success and hands the sink
    one statistic, the aggregate one, with unit count 0 and with
    start and compute-start both equal to the first clock reading of
    the invocation; nothing is sent and nothing is released. *)
Theorem empty_plan_reports_zero (host : Host) (raw_requests : list Request)
  (model_state : ModelState) (target_memory : MemoryType) :
  setup host = Normal (model_state, target_memory) ->
  get_input_batches host raw_requests target_memory = ([], None) ->
  let r := TRITONBACKEND_ModelInstanceExecute host raw_requests in
  let all_start_time := steady_clock host 0 in
  let all_end_time := steady_clock host 1 in
  snd r = None /\
  stats_of (trace (fst r)) =
    [StatBatch 0 all_start_time all_start_time all_end_time all_end_time] /\
  send_targets (trace (fst r)) = [] /\
  release_targets (trace (fst r)) = [].
Proof.
  intros Hs Hp. cbv zeta.
  rewrite (@execute_run host raw_requests model_state target_memory Hs).
  rewrite Hp. unfold batch_loop, finish_events. simpl.
  destruct (report_statistics_throws host _); repeat split.
Qed.

Lemma empty_plan_reports_zero_witness :
  let r := TRITONBACKEND_ModelInstanceExecute Scenario.no_batches [] in
  snd r = None /\
  stats_of (trace (fst r)) = [StatBatch 0 100 100 101 101] /\
  send_targets (trace (fst r)) = [] /\
  release_targets (trace (fst r)) = [].
Proof.
  apply (@empty_plan_reports_zero Scenario.no_batches []
           Scenario.regressor MEMORY_GPU); reflexivity.
Defined.

(** C4: the shape planned for the j-th request of a batch starts with
    the row count of that request's input; with [predict_proba] it is
    (rows, class count), without it (rows) alone.  The planning loop
    always returns, with one output shape per input shape. *)
Theorem planned_output_shape (model_state : ModelState)
  (batch : InputBatch) (s : Frame) (j : nat) (input_shape : list Z) :
  nth_error (shapes batch) j = Some input_shape ->
  exists s' output_shapes,
    plan_output_shapes model_state (shapes batch) s =
      (s', Normal output_shapes) /\
    List.length output_shapes = List.length (shapes batch) /\
    nth_error output_shapes j =
      Some (if predict_proba model_state
            then [row_count input_shape; num_class model_state]
            else [row_count input_shape]).
Proof.
  intros Hj. rewrite plan_output_shapes_run.
  eexists. eexists. split; [reflexivity|]. split.
  - apply length_map.
  - rewrite nth_error_map, Hj. simpl. unfold output_shape_of.
    destruct (predict_proba model_state); reflexivity.
Qed.

Lemma planned_output_shape_witness :
  exists s' output_shapes,
    plan_output_shapes Scenario.classifier [[4; 2]; [1; 2]]%Z
      initial_frame = (s', Normal output_shapes) /\
    List.length output_shapes = 2 /\
    nth_error output_shapes 1 = Some [1; 3]%Z.
Proof.
  apply (@planned_output_shape Scenario.classifier
           (mkBatch 0 [[4; 2]; [1; 2]]%Z (0, 2)) initial_frame 1 [1; 2]%Z).
  reflexivity.
Defined.

(** ** Terminal outcomes and releases *)

Lemma firstn_add_skipn {A} (m k : nat) (l : list A) :
  firstn (m + k) l = firstn m l ++ firstn k (skipn m l).
Proof.
  revert l. induction m as [|m IH]; intros l; simpl.
  - reflexivity.
  - destruct l as [|x l]; simpl.
    + now rewrite firstn_nil.
    + f_equal. apply IH.
Qed.

Lemma slice_empty {A} (a : nat) (l : list A) : slice a a l = [].
Proof. unfold slice. now rewrite Nat.sub_diag. Qed.

Lemma slice_app {A} (a b c : nat) (l : list A) :
  a <= b -> b <= c ->
  slice a b l ++ slice b c l = slice a c l.
Proof.
  intros Hab Hbc. unfold slice.
  replace (skipn b l) with (skipn (b - a) (skipn a l))
    by (rewrite skipn_skipn; f_equal; lia).
  replace (c - a) with ((b - a) + (c - b)) by lia.
  now rewrite firstn_add_skipn.
Qed.

Lemma slice_from_zero {A} (k : nat) (l : list A) :
  slice 0 k l = firstn k l.
Proof. unfold slice. now rewrite Nat.sub_0_r. Qed.

Section ExactlyOnce.

Variable host : Host.
Variable model_state : ModelState.
Variable target_memory : MemoryType.
Variable requests : list Request.

(** The loop under the planner's contract: on every way out of it, the
    requests sent to and the requests released are those between the
    progress at entry and the progress at exit. *)
Lemma loop_covers_progress (batches : list InputBatch) (complete : bool) :
  forall (s s' : Frame) (out : Outcome unit),
    responses s = [] ->
    extents_partition (end_request s) (List.length requests) batches
      complete = true ->
    for_each batches
      (process_batch host model_state target_memory requests) s = (s', out) ->
    responses s' = [] /\
    end_request s <= end_request s' /\
    end_request s' <= List.length requests /\
    send_targets (trace s') =
      send_targets (trace s) ++
      slice (end_request s) (end_request s') requests /\
    release_targets (trace s') =
      release_targets (trace s) ++
      slice (end_request s) (end_request s') requests /\
    (complete = true -> out = Normal tt ->
     end_request s' = List.length requests).
Proof.
  induction batches as [|b rest IH]; intros s s' out Hrs Hwf Hrun.
  - simpl in Hrun. injection Hrun as <- <-. simpl in Hwf.
    rewrite slice_empty, !app_nil_r.
    assert (end_request s <= List.length requests).
    { destruct complete.
      - apply Nat.eqb_eq in Hwf. lia.
      - now apply Nat.leb_le in Hwf. }
    repeat split; auto.
    intros -> _. now apply Nat.eqb_eq in Hwf.
  - rewrite for_each_batch_cons in Hrun by exact Hrs.
    simpl in Hwf.
    apply andb_prop in Hwf. destruct Hwf as [Hwf Hrest].
    apply andb_prop in Hwf. destruct Hwf as [Hwf Hle2].
    apply andb_prop in Hwf. destruct Hwf as [Hfst Hle1].
    apply Nat.eqb_eq in Hfst. apply Nat.leb_le in Hle1, Hle2.
    destruct (construct_responses_throws host _) as [e|].
    + injection Hrun as <- <-. simpl.
      rewrite slice_empty, !app_nil_r.
      repeat split; auto; try lia. discriminate.
    + cbv zeta in Hrun.
      apply IH in Hrun; [|reflexivity|exact Hrest].
      simpl in Hrun.
      destruct Hrun as (H1 & H2 & H3 & H4 & H5 & H6).
      rewrite send_targets_app, batch_events_send_targets in H4.
      rewrite release_targets_app, batch_events_release_targets in H5.
      rewrite Hfst in H4, H5.
      rewrite <- app_assoc, slice_app in H4, H5 by lia.
      repeat split; auto; lia.
Qed.

End ExactlyOnce.

Lemma abort_events_send_targets (host : Host) (raw_requests : list Request)
  (s : Frame) (e : TritonException) :
  responses s = [] ->
  send_targets (abort_events host raw_requests s e) =
  skipn (end_request s) raw_requests.
Proof.
  intros Hrs. unfold abort_events. rewrite Hrs. cbn [map app].
  rewrite !send_targets_app, send_targets_sends, send_targets_stat_events,
    send_targets_releases.
  now rewrite app_nil_r.
Qed.

Lemma abort_events_release_targets (host : Host)
  (raw_requests : list Request) (s : Frame) (e : TritonException) :
  responses s = [] ->
  release_targets (abort_events host raw_requests s e) =
  skipn (end_request s) raw_requests.
Proof.
  intros Hrs. unfold abort_events. rewrite Hrs. cbn [map app].
  rewrite !release_targets_app, release_targets_sends,
    release_targets_stat_events, release_targets_releases.
  reflexivity.
Qed.

(** C1, as amended: in every invocation whose setup succeeds and whose
    planner keeps its contract on extents, on every way out (normal
    completion, batch-local failures, planning-level abort) the
    requests that receive a terminal outcome are, in order, exactly
    the requests handed in, and so are the requests released; every
    request of the list has exactly one terminal outcome and exactly
    one release. *)
Theorem every_request_answered_and_released_once (host : Host)
  (raw_requests : list Request) (model_state : ModelState)
  (target_memory : MemoryType) :
  setup host = Normal (model_state, target_memory) ->
  plan_well_formed raw_requests
    (get_input_batches host raw_requests target_memory) = true ->
  let tr :=
    trace (fst (TRITONBACKEND_ModelInstanceExecute host raw_requests)) in
  send_targets tr = raw_requests /\
  release_targets tr = raw_requests /\
  exactly_once host raw_requests.
Proof.
  intros Hs Hwf.
  assert (Hlists :
    let tr :=
      trace (fst (TRITONBACKEND_ModelInstanceExecute host raw_requests)) in
    send_targets tr = raw_requests /\ release_targets tr = raw_requests).
  { cbv zeta.
    rewrite (@execute_run host raw_requests model_state target_memory Hs).
    cbv zeta. unfold plan_well_formed in Hwf. unfold batch_loop.
    destruct (get_input_batches host raw_requests target_memory)
      as [batches perr]. simpl in Hwf. cbn [fst snd].
    destruct (for_each batches _ loop_entry) as [s out] eqn:Hloop.
    apply (@loop_covers_progress host model_state target_memory raw_requests
             batches _ loop_entry s out eq_refl Hwf) in Hloop.
    destruct Hloop as (Hrs & _ & Hle & Hsend & Hrel & Hend).
    simpl in Hsend, Hrel. rewrite slice_from_zero in Hsend, Hrel.
    assert (Habort : forall e,
      send_targets (trace s ++ abort_events host raw_requests s e) =
        raw_requests /\
      release_targets (trace s ++ abort_events host raw_requests s e) =
        raw_requests).
    { intros e.
      rewrite send_targets_app, release_targets_app,
        abort_events_send_targets, abort_events_release_targets by exact Hrs.
      rewrite Hsend, Hrel. split; apply firstn_skipn. }
    destruct out as [[]|e]; [destruct perr as [e|]|]; cbn [fst snd trace];
      try apply Habort.
    rewrite send_targets_app, release_targets_app.
    unfold finish_events.
    rewrite send_targets_stat_events, release_targets_stat_events,
      !app_nil_r, Hsend, Hrel.
    rewrite (Hend eq_refl eq_refl).
    split; apply firstn_all. }
  cbv zeta in *. destruct Hlists as [Hsend Hrel].
  split; [exact Hsend|]. split; [exact Hrel|].
  unfold exactly_once. cbv zeta. rewrite Hsend, Hrel. auto.
Qed.

Lemma every_request_answered_and_released_once_witness :
  let tr :=
    trace (fst (TRITONBACKEND_ModelInstanceExecute Scenario.two_batches
                  [10; 11; 12])) in
  send_targets tr = [10; 11; 12] /\
  release_targets tr = [10; 11; 12] /\
  exactly_once Scenario.two_batches [10; 11; 12].
Proof.
  apply (@every_request_answered_and_released_once Scenario.two_batches
           [10; 11; 12] Scenario.regressor MEMORY_GPU).
  - reflexivity.
  - reflexivity.
Defined.

(** C1 as worded fails when the setup throws: the two requests handed
    to an instance whose memory type cannot be resolved get no outcome
    and are not released. *)
Lemma setup_failure_leaves_requests_unanswered :
  ~ exactly_once Scenario.bad_instance_kind [10; 11].
Proof.
  assert (Htrace :
    trace (fst (TRITONBACKEND_ModelInstanceExecute
                  Scenario.bad_instance_kind [10; 11])) = [])
    by reflexivity.
  unfold exactly_once. cbv zeta. rewrite Htrace.
  intros H. destruct (H 10 (or_introl eq_refl)) as [H1 _].
  simpl in H1. discriminate.
Qed.

(** ** The loop as a whole *)

Section Loop.

Variable host : Host.
Variable model_state : ModelState.
Variable target_memory : MemoryType.
Variable requests : list Request.


(** The loop returns with no pending response, whichever way it ends,
    and a property of traces kept by every iteration is kept by the
    loop. *)
Lemma loop_trace_invariant (P : list Event -> Prop) :
  (forall tr b t0,
     P tr ->
     P (tr ++ fst (batch_events host model_state target_memory requests b
                     t0))) ->
  forall (batches : list InputBatch) (s s' : Frame) (out : Outcome unit),
    responses s = [] ->
    P (trace s) ->
    for_each batches
      (process_batch host model_state target_memory requests) s =
      (s', out) ->
    responses s' = [] /\ P (trace s').
Proof.
  intros Hstep. induction batches as [|b rest IH]; intros s s' out Hrs HP Hrun.
  - simpl in Hrun. injection Hrun as <- <-. auto.
  - rewrite for_each_batch_cons in Hrun by exact Hrs.
    destruct (construct_responses_throws host _) as [e|].
    + injection Hrun as <- <-. auto.
    + cbv zeta in Hrun. apply IH in Hrun; auto.
      simpl. apply Hstep. exact HP.
Qed.

(** When every [construct_responses] succeeds the loop runs to its end;
    the counter has then taken the rows of every batch and the progress
    is the end of the last extent. *)
Lemma loop_completes (batches : list InputBatch) :
  forall s : Frame,
    responses s = [] ->
    responses_constructible host requests batches ->
    exists s',
      for_each batches
        (process_batch host model_state target_memory requests) s =
        (s', Normal tt) /\
      total_inference_count s' =
        add_batches (total_inference_count s) batches /\
      end_request s' =
        fold_left (fun _ b => snd (extent b)) batches (end_request s) /\
      ticks s <= ticks s'.
Proof.
  induction batches as [|b rest IH]; intros s Hrs Hok.
  - exists s. simpl. auto.
  - rewrite for_each_batch_cons by exact Hrs.
    rewrite (Hok b (or_introl eq_refl)). cbv zeta.
    destruct (IH (mkFrame
                    (trace s ++
                     fst (batch_events host model_state target_memory
                            requests b (ticks s)))
                    (snd (batch_events host model_state target_memory
                            requests b (ticks s)))
                    [] (snd (extent b))
                    (add_rows (total_inference_count s) (shapes b))))
      as (s' & Hrun & Htot & Hend & Htk).
    + reflexivity.
    + intros b' Hb'. apply Hok. now right.
    + exists s'. repeat split; auto.
      simpl in Htk. unfold batch_events in Htk.
      destruct (compute_attempt _ _ _ _ _ _) as [[evs k] [e|]];
        simpl in Htk; lia.
Qed.

End Loop.

Lemma stats_of_sends (l : list Request) (err : option TRITONSERVER_Error) :
  stats_of (map (fun r => EvSend r err) l) = [].
Proof. induction l as [|r l IH]; simpl; auto. Qed.

Lemma stats_of_releases (l : list Request) :
  stats_of (map EvRelease l) = [].
Proof. induction l as [|r l IH]; simpl; auto. Qed.

(** The single statistic of one iteration: a per-request record that
    starts at the reading taken on entry, and whose compute start is
    that same reading when it reports a failure. *)
Lemma batch_events_stats (host : Host) (model_state : ModelState)
  (target_memory : MemoryType) (requests : list Request) (b : InputBatch)
  (t0 : nat) :
  exists ok t1 t2 t3,
    stats_of (fst (batch_events host model_state target_memory requests b
                     t0)) =
      [StatRequests (slice (fst (extent b)) (snd (extent b)) requests) ok
         (steady_clock host t0) t1 t2 t3] /\
    (ok = false -> t1 = steady_clock host t0).
Proof.
  unfold batch_events.
  set (breqs := slice (fst (extent b)) (snd (extent b)) requests).
  pose proof (compute_attempt_cases host breqs target_memory
                (map (output_shape_of model_state) (shapes b)) (data b)
                (predict_proba model_state)) as H.
  cbv zeta in H.
  pose proof (fun err => stats_of_sends breqs err) as Hsends.
  pose proof (stats_of_releases breqs) as Hrels.
  destruct (compute_attempt host breqs target_memory _ _ _)
    as [[evs k] [e|]]; cbn [fst snd] in *.
  - exists false. do 3 eexists.
    rewrite !stats_of_app, Hsends, stats_of_stat_events, Hrels.
    split; [|reflexivity].
    destruct H as [(-> & _)|[(-> & _)|(-> & _)]]; reflexivity.
  - exists true. do 3 eexists.
    rewrite !stats_of_app, Hsends, stats_of_stat_events, Hrels.
    split; [|discriminate].
    destruct H as [(-> & _)|[(-> & _)|(-> & _)]]; reflexivity.
Qed.

(** ** The aggregate statistic *)

Lemma loop_stats_per_request (host : Host) (model_state : ModelState)
  (target_memory : MemoryType) (requests : list Request)
  (batches : list InputBatch) (s s' : Frame) (out : Outcome unit) :
  responses s = [] ->
  Forall per_request_stat (stats_of (trace s)) ->
  for_each batches (process_batch host model_state target_memory requests)
    s = (s', out) ->
  responses s' = [] /\ Forall per_request_stat (stats_of (trace s')).
Proof.
  apply (@loop_trace_invariant host model_state target_memory requests
           (fun tr => Forall per_request_stat (stats_of tr))).
  intros tr b t0 Htr. rewrite stats_of_app. apply Forall_app. split; auto.
  destruct (batch_events_stats host model_state target_memory requests b t0)
    as (ok & t1 & t2 & t3 & -> & _).
  constructor; [|constructor]. unfold per_request_stat. eauto 10.
Qed.

(** C5, as amended: when the loop completes normally the entry point
    returns success, and the last statistic it hands to the sink is the
    aggregate one; its unit count is the sum, modulo 2^64 and started
    from zero, of the row counts of every batch the planner yielded,
    whether its compute step succeeded or failed; its start and
    compute-start are the first clock reading of the invocation, its
    compute-end and end the last one.  Every statistic before it is a
    per-batch record. *)
Theorem aggregate_counts_every_planned_row (host : Host)
  (raw_requests : list Request) (model_state : ModelState)
  (target_memory : MemoryType) (batches : list InputBatch) :
  setup host = Normal (model_state, target_memory) ->
  get_input_batches host raw_requests target_memory = (batches, None) ->
  responses_constructible host raw_requests batches ->
  let r := TRITONBACKEND_ModelInstanceExecute host raw_requests in
  let all_start_time := steady_clock host 0 in
  let all_end_time := steady_clock host (ticks (fst r) - 1) in
  snd r = None /\
  exists per_batch,
    stats_of (trace (fst r)) =
      per_batch ++
      [StatBatch (add_batches 0 batches) all_start_time all_start_time
         all_end_time all_end_time] /\
    Forall per_request_stat per_batch.
Proof.
  intros Hs Hp Hok. cbv zeta.
  rewrite (@execute_run host raw_requests model_state target_memory Hs).
  rewrite Hp. cbv zeta. cbn [fst snd]. unfold batch_loop.
  destruct (@loop_completes host model_state target_memory raw_requests
              batches loop_entry eq_refl Hok)
    as (s' & Hrun & Htot & _ & _).
  rewrite Hrun. cbn [fst snd trace ticks].
  split; [reflexivity|].
  exists (stats_of (trace s')). split.
  - rewrite stats_of_app. unfold finish_events.
    rewrite stats_of_stat_events, Htot, Nat.sub_succ, Nat.sub_0_r.
    reflexivity.
  - eapply loop_stats_per_request in Hrun; [apply Hrun|reflexivity|].
    constructor.
Qed.

Lemma aggregate_counts_every_planned_row_witness :
  let r := TRITONBACKEND_ModelInstanceExecute Scenario.one_failing_batch
             [10] in
  let all_start_time := steady_clock Scenario.one_failing_batch 0 in
  let all_end_time :=
    steady_clock Scenario.one_failing_batch (ticks (fst r) - 1) in
  snd r = None /\
  exists per_batch,
    stats_of (trace (fst r)) =
      per_batch ++
      [StatBatch (add_batches 0 [mkBatch 1 [[4; 2]]%Z (0, 1)])
         all_start_time all_start_time all_end_time all_end_time] /\
    Forall per_request_stat per_batch.
Proof.
  apply (@aggregate_counts_every_planned_row Scenario.one_failing_batch
           [10] Scenario.regressor MEMORY_GPU
           [mkBatch 1 [[4; 2]]%Z (0, 1)]).
  - reflexivity.
  - reflexivity.
  - intros b _. reflexivity.
Defined.

(** C5 as worded fails: one request of four rows whose prediction
    throws leaves no successful unit, yet the aggregate statistic of
    the invocation counts four. *)
Lemma aggregate_counts_failed_rows :
  successful_rows Scenario.one_failing_batch Scenario.regressor MEMORY_GPU
    [10]
    (fst (get_input_batches Scenario.one_failing_batch [10] MEMORY_GPU)) =
    0%Z /\
  stats_of
    (trace (fst (TRITONBACKEND_ModelInstanceExecute
                   Scenario.one_failing_batch [10]))) =
    [StatRequests [10] false 101 101 103 104; StatBatch 4 100 100 105 105] /\
  ~ aggregate_counts_successes Scenario.one_failing_batch Scenario.regressor
      MEMORY_GPU [10].
Proof.
  assert (Hrows :
    successful_rows Scenario.one_failing_batch Scenario.regressor MEMORY_GPU
      [10]
      (fst (get_input_batches Scenario.one_failing_batch [10] MEMORY_GPU)) =
      0%Z) by reflexivity.
  assert (Hstats :
    stats_of
      (trace (fst (TRITONBACKEND_ModelInstanceExecute
                     Scenario.one_failing_batch [10]))) =
      [StatRequests [10] false 101 101 103 104;
       StatBatch 4 100 100 105 105]) by reflexivity.
  split; [exact Hrows|]. split; [exact Hstats|].
  unfold aggregate_counts_successes. cbv zeta.
  rewrite Hrows, Hstats.
  intros (t0 & t1 & [H|[H|[]]]); discriminate.
Qed.

(** ** Failure statistics *)

Lemma stats_of_response_sends (rs : list Response)
  (err : option TRITONSERVER_Error) :
  stats_of (map (fun r => EvSend (response_request r) err) rs) = [].
Proof. induction rs as [|r l IH]; simpl; auto. Qed.

Lemma abort_events_stats (host : Host) (raw_requests : list Request)
  (s : Frame) (e : TritonException) :
  stats_of (abort_events host raw_requests s e) =
  [StatRequests (skipn (end_request s) raw_requests) false
     (steady_clock host 0) (steady_clock host 0)
     (steady_clock host (ticks s)) (steady_clock host (ticks s))].
Proof.
  unfold abort_events.
  rewrite !stats_of_app, stats_of_response_sends, stats_of_sends,
    stats_of_stat_events, stats_of_releases.
  reflexivity.
Qed.

Lemma loop_failure_stats (host : Host) (model_state : ModelState)
  (target_memory : MemoryType) (requests : list Request)
  (batches : list InputBatch) (s s' : Frame) (out : Outcome unit) :
  responses s = [] ->
  Forall compute_starts_with_unit (stats_of (trace s)) ->
  for_each batches (process_batch host model_state target_memory requests)
    s = (s', out) ->
  responses s' = [] /\
  Forall compute_starts_with_unit (stats_of (trace s')).
Proof.
  apply (@loop_trace_invariant host model_state target_memory requests
           (fun tr => Forall compute_starts_with_unit (stats_of tr))).
  intros tr b t0 Htr. rewrite stats_of_app. apply Forall_app. split; auto.
  destruct (batch_events_stats host model_state target_memory requests b t0)
    as (ok & t1 & t2 & t3 & -> & Ht1).
  constructor; [|constructor].
  unfold compute_starts_with_unit. simpl. intros Hok.
  apply Ht1. now destruct ok.
Qed.

(** C10: in an invocation that got past its setup, every failure
    statistic handed to the sink has its compute-enter timestamp equal
    to its own enter timestamp (for a batch, the reading taken on
    entering the batch); and when the invocation returns an error, the
    last statistic is the failure record of the planning abort, whose
    enter and compute-enter are the first clock reading of the
    invocation and whose compute-exit equals its exit. *)
Theorem failure_statistics_span_the_unit (host : Host)
  (raw_requests : list Request) (model_state : ModelState)
  (target_memory : MemoryType) :
  setup host = Normal (model_state, target_memory) ->
  let r := TRITONBACKEND_ModelInstanceExecute host raw_requests in
  Forall compute_starts_with_unit (stats_of (trace (fst r))) /\
  (snd r <> None ->
   exists earlier st,
     stats_of (trace (fst r)) = earlier ++ [st] /\
     is_failure_stat st = true /\
     stat_start st = steady_clock host 0 /\
     stat_compute_start st = steady_clock host 0 /\
     stat_compute_end st = stat_finish st).
Proof.
  intros Hs. cbv zeta.
  rewrite (@execute_run host raw_requests model_state target_memory Hs).
  cbv zeta. unfold batch_loop.
  destruct (for_each _ _ loop_entry) as [s out] eqn:Hloop.
  apply loop_failure_stats in Hloop; [|reflexivity|constructor].
  destruct Hloop as [_ Hall].
  assert (Habort : forall e,
    Forall compute_starts_with_unit
      (stats_of (trace s ++ abort_events host raw_requests s e)) /\
    exists earlier st,
      stats_of (trace s ++ abort_events host raw_requests s e) =
        earlier ++ [st] /\
      is_failure_stat st = true /\
      stat_start st = steady_clock host 0 /\
      stat_compute_start st = steady_clock host 0 /\
      stat_compute_end st = stat_finish st).
  { intros e. rewrite stats_of_app, abort_events_stats. split.
    - apply Forall_app. split; auto.
      constructor; [|constructor]. intros _. reflexivity.
    - eexists. eexists. split; [reflexivity|]. repeat split. }
  destruct out as [[]|e];
    [destruct (snd (get_input_batches host raw_requests target_memory))
       as [e|]|]; cbn [fst snd trace].
  - destruct (Habort e) as [H1 H2]. split; auto.
  - split; [|intros H; now elim H].
    rewrite stats_of_app. apply Forall_app. split; auto.
    unfold finish_events. rewrite stats_of_stat_events.
    constructor; [|constructor]. intros H. discriminate H.
  - destruct (Habort e) as [H1 H2]. split; auto.
Qed.

Lemma failure_statistics_span_the_unit_witness :
  let r := TRITONBACKEND_ModelInstanceExecute Scenario.planner_fails_second
             [10; 11; 12] in
  Forall compute_starts_with_unit (stats_of (trace (fst r))) /\
  (snd r <> None ->
   exists earlier st,
     stats_of (trace (fst r)) = earlier ++ [st] /\
     is_failure_stat st = true /\
     stat_start st = steady_clock Scenario.planner_fails_second 0 /\
     stat_compute_start st = steady_clock Scenario.planner_fails_second 0 /\
     stat_compute_end st = stat_finish st).
Proof.
  apply (@failure_statistics_span_the_unit Scenario.planner_fails_second
           [10; 11; 12] Scenario.regressor MEMORY_GPU).
  reflexivity.
Defined.

(** ** Failures of the statistics sink *)

Lemma quiet_map {A} (f : A -> Event) (l : list A) :
  (forall x, is_log (f x) = false) ->
  logs_of (map f l) = [] /\ erase_logs (map f l) = map f l.
Proof.
  intros Hf. induction l as [|x l [IH1 IH2]]; simpl; [auto|].
  specialize (Hf x). unfold erase_logs in *. simpl.
  destruct (f x); simpl in *; try discriminate; rewrite ?IH1, ?IH2; auto.
Qed.

Lemma stat_events_logs (host : Host) (st : StatRecord) :
  logs_of (stat_events host st) = owed_logs host (stat_events host st) /\
  erase_logs (stat_events host st) = [EvStat st].
Proof.
  unfold owed_logs. rewrite stats_of_stat_events.
  unfold stat_events. simpl.
  destruct (report_statistics_throws host st); auto.
Qed.

Lemma owed_logs_app (host : Host) (t1 t2 : list Event) :
  owed_logs host (t1 ++ t2) = owed_logs host t1 ++ owed_logs host t2.
Proof. unfold owed_logs. now rewrite stats_of_app, flat_map_app. Qed.

Lemma owed_logs_no_stats (host : Host) (tr : list Event) :
  stats_of tr = [] -> owed_logs host tr = [].
Proof. unfold owed_logs. now intros ->. Qed.

Section Sink.

Variable host : Host.
Variable model_state : ModelState.
Variable target_memory : MemoryType.
Variable requests : list Request.


Lemma compute_attempt_quiet (batch_requests : list Request)
  (output_shapes : list (list Z)) (input : Tensor) (proba : bool) :
  let evs :=
    fst (fst (compute_attempt host batch_requests target_memory
                output_shapes input proba)) in
  logs_of evs = [] /\ erase_logs evs = evs /\ stats_of evs = [].
Proof.
  pose proof (compute_attempt_cases host batch_requests target_memory
                output_shapes input proba) as H.
  cbv zeta in *.
  destruct H as [(-> & _)|[(-> & _)|(-> & _)]]; repeat split.
Qed.

(** One iteration with the failing sink differs from the iteration
    with the reliable sink by log lines only, and owes exactly the log
    lines it wrote. *)
Lemma batch_events_sink (b : InputBatch) (t0 : nat) :
  let r := batch_events host model_state target_memory requests b t0 in
  let r0 :=
    batch_events (with_statistics_sink host reliable_sink) model_state
      target_memory requests b t0 in
  erase_logs (fst r) = fst r0 /\
  snd r = snd r0 /\
  logs_of (fst r) = owed_logs host (fst r).
Proof.
  cbv zeta. unfold batch_events.
  change (compute_attempt (with_statistics_sink host reliable_sink))
    with (compute_attempt host).
  change (steady_clock (with_statistics_sink host reliable_sink))
    with (steady_clock host).
  set (breqs := slice (fst (extent b)) (snd (extent b)) requests).
  pose proof (compute_attempt_quiet breqs
                (map (output_shape_of model_state) (shapes b)) (data b)
                (predict_proba model_state)) as Hq.
  cbv zeta in Hq.
  destruct (compute_attempt host breqs target_memory _ _ _)
    as [[evs k] [e|]]; cbn [fst snd] in *;
    destruct Hq as (Hq1 & Hq2 & Hq3);
    repeat rewrite erase_logs_app; repeat rewrite logs_of_app;
    repeat rewrite owed_logs_app;
    match goal with
    | |- context [stat_events host ?st] =>
        destruct (stat_events_logs host st) as [Hl He]; rewrite Hl, He
    end.
  - destruct (quiet_map (fun r => EvSend r (Some (error e))) breqs
                (fun _ => eq_refl)) as [-> ->].
    destruct (quiet_map EvRelease breqs (fun _ => eq_refl)) as [-> ->].
    rewrite Hq1, Hq2.
    rewrite (owed_logs_no_stats host evs Hq3).
    rewrite (owed_logs_no_stats host _ (stats_of_sends breqs _)).
    rewrite (owed_logs_no_stats host _ (stats_of_releases breqs)).
    repeat split.
  - destruct (quiet_map (fun r => EvSend r None) breqs
                (fun _ => eq_refl)) as [-> ->].
    destruct (quiet_map EvRelease breqs (fun _ => eq_refl)) as [-> ->].
    rewrite Hq1, Hq2.
    rewrite (owed_logs_no_stats host evs Hq3).
    rewrite (owed_logs_no_stats host _ (stats_of_sends breqs _)).
    rewrite (owed_logs_no_stats host _ (stats_of_releases breqs)).
    repeat split.
Qed.

Lemma loop_sink (batches : list InputBatch) :
  forall (s s0 s' s0' : Frame) (out out0 : Outcome unit),
    responses s = [] ->
    same_but_logs s s0 ->
    for_each batches
      (process_batch host model_state target_memory requests) s =
      (s', out) ->
    for_each batches
      (process_batch (with_statistics_sink host reliable_sink) model_state
         target_memory requests) s0 =
      (s0', out0) ->
    out = out0 /\ same_but_logs s' s0' /\ responses s' = [].
Proof.
  induction batches as [|b rest IH];
    intros s s0 s' s0' out out0 Hrs Hag Hrun Hrun0.
  - simpl in Hrun, Hrun0.
    injection Hrun as <- <-. injection Hrun0 as <- <-. auto.
  - destruct Hag as (Htr & Htk & Hr & Hend & Htot).
    rewrite for_each_batch_cons in Hrun by exact Hrs.
    rewrite for_each_batch_cons in Hrun0 by (now rewrite <- Hr).
    change
      (construct_responses_throws (with_statistics_sink host reliable_sink))
      with (construct_responses_throws host) in Hrun0.
    destruct (construct_responses_throws host _) as [e|].
    + injection Hrun as <- <-. injection Hrun0 as <- <-.
      unfold same_but_logs. simpl. rewrite Htk, Hend, Htot.
      repeat split; auto.
    + cbv zeta in Hrun, Hrun0.
      destruct (batch_events_sink b (ticks s)) as (He & Hk & _).
      refine (IH _ _ _ _ _ _ _ _ Hrun Hrun0); [reflexivity|].
      unfold same_but_logs. simpl.
      rewrite erase_logs_app, Htr, He, Hk, <- Htk, <- Htot.
      repeat split.
Qed.

Lemma loop_logs_owed (batches : list InputBatch) (s s' : Frame)
  (out : Outcome unit) :
  responses s = [] ->
  logs_of (trace s) = owed_logs host (trace s) ->
  for_each batches (process_batch host model_state target_memory requests)
    s = (s', out) ->
  responses s' = [] /\ logs_of (trace s') = owed_logs host (trace s').
Proof.
  apply (@loop_trace_invariant host model_state target_memory requests
           (fun tr => logs_of tr = owed_logs host tr)).
  intros tr b t0 Htr.
  destruct (batch_events_sink b t0) as (_ & _ & Hl).
  now rewrite logs_of_app, owed_logs_app, Htr, Hl.
Qed.

End Sink.

Lemma erase_logs_targets (tr : list Event) :
  send_targets (erase_logs tr) = send_targets tr /\
  release_targets (erase_logs tr) = release_targets tr.
Proof.
  induction tr as [|ev tr [IH1 IH2]]; [auto|].
  destruct ev; simpl; rewrite ?IH1, ?IH2; auto.
Qed.

Lemma finish_events_sink (host : Host) (s s0 : Frame) :
  same_but_logs s s0 ->
  erase_logs (finish_events host s) =
    finish_events (with_statistics_sink host reliable_sink) s0 /\
  logs_of (finish_events host s) = owed_logs host (finish_events host s).
Proof.
  intros (_ & Htk & _ & _ & Htot). unfold finish_events.
  match goal with
  | |- context [stat_events host ?st] =>
      destruct (stat_events_logs host st) as [Hl He]
  end.
  rewrite Hl, He, Htk, Htot. split; reflexivity.
Qed.

Lemma abort_events_sink (host : Host) (raw_requests : list Request)
  (s s0 : Frame) (e : TritonException) :
  responses s = [] ->
  same_but_logs s s0 ->
  erase_logs (abort_events host raw_requests s e) =
    abort_events (with_statistics_sink host reliable_sink) raw_requests s0
      e /\
  logs_of (abort_events host raw_requests s e) =
    owed_logs host (abort_events host raw_requests s e).
Proof.
  intros Hrs (_ & Htk & Hr & Hend & _). unfold abort_events.
  rewrite <- Hr, Hrs, <- Hend, <- Htk. cbn [map app].
  set (rem := skipn (end_request s) raw_requests).
  repeat rewrite erase_logs_app. repeat rewrite logs_of_app.
  repeat rewrite owed_logs_app.
  match goal with
  | |- context [stat_events host ?st] =>
      destruct (stat_events_logs host st) as [Hl He]
  end.
  rewrite Hl, He.
  destruct (quiet_map (fun r => EvSend r (Some (error e))) rem
              (fun _ => eq_refl)) as [-> ->].
  destruct (quiet_map EvRelease rem (fun _ => eq_refl)) as [-> ->].
  rewrite (owed_logs_no_stats host _ (stats_of_sends rem _)).
  rewrite (owed_logs_no_stats host _ (stats_of_releases rem)).
  split; reflexivity.
Qed.

(** C6: whatever the statistics sink does on each of the reports of an
    invocation (per-batch success, per-batch failure, planning-abort
    aggregate, end-of-invocation aggregate), the returned error is the
    one returned with a sink that never fails, the trace is the trace
    with that sink plus log lines, so the responses sent and the
    requests released are the same, and the log lines are exactly one
    per report whose recording threw, carrying its message. *)
Theorem statistics_failures_are_contained (host : Host)
  (raw_requests : list Request) :
  let r := TRITONBACKEND_ModelInstanceExecute host raw_requests in
  let r0 :=
    TRITONBACKEND_ModelInstanceExecute
      (with_statistics_sink host reliable_sink) raw_requests in
  snd r = snd r0 /\
  erase_logs (trace (fst r)) = trace (fst r0) /\
  send_targets (trace (fst r)) = send_targets (trace (fst r0)) /\
  release_targets (trace (fst r)) = release_targets (trace (fst r0)) /\
  logs_of (trace (fst r)) = owed_logs host (trace (fst r)).
Proof.
  set (host0 := with_statistics_sink host reliable_sink).
  assert (Hmain :
    let r := TRITONBACKEND_ModelInstanceExecute host raw_requests in
    let r0 := TRITONBACKEND_ModelInstanceExecute host0 raw_requests in
    snd r = snd r0 /\
    erase_logs (trace (fst r)) = trace (fst r0) /\
    logs_of (trace (fst r)) = owed_logs host (trace (fst r))).
  { cbv zeta.
    assert (Hs0 : setup host0 = setup host) by reflexivity.
    destruct (setup host) as [[model_state target_memory]|e] eqn:Hs.
    - rewrite (@execute_run host raw_requests model_state target_memory Hs).
      rewrite (@execute_run host0 raw_requests model_state target_memory
                 Hs0).
      cbv zeta.
      change (get_input_batches host0) with (get_input_batches host).
      unfold batch_loop.
      destruct (get_input_batches host raw_requests target_memory)
        as [batches perr]. cbn [fst snd].
      destruct (for_each batches
                  (process_batch host model_state target_memory
                     raw_requests) loop_entry) as [s out] eqn:Hrun.
      destruct (for_each batches
                  (process_batch host0 model_state target_memory
                     raw_requests) loop_entry) as [s0 out0] eqn:Hrun0.
      assert (Hentry : same_but_logs loop_entry loop_entry)
        by (repeat split).
      destruct (@loop_sink host model_state target_memory raw_requests
                  batches loop_entry loop_entry s s0 out out0 eq_refl
                  Hentry Hrun Hrun0) as (<- & Hag & Hrs).
      destruct (@loop_logs_owed host model_state target_memory raw_requests
                  batches loop_entry s out eq_refl eq_refl Hrun)
        as [_ Hlogs].
      assert (Habort : forall e,
        erase_logs (trace s ++ abort_events host raw_requests s e) =
          trace s0 ++ abort_events host0 raw_requests s0 e /\
        logs_of (trace s ++ abort_events host raw_requests s e) =
          owed_logs host (trace s ++ abort_events host raw_requests s e)).
      { intros e.
        destruct (abort_events_sink host raw_requests e Hrs Hag)
          as [He Hl].
        rewrite erase_logs_app, logs_of_app, owed_logs_app, Hlogs, Hl.
        fold host0 in He. rewrite He.
        destruct Hag as [-> _]. split; reflexivity. }
      destruct out as [[]|e]; [destruct perr as [e|]|];
        cbn [fst snd trace].
      + split; [reflexivity|]. apply Habort.
      + split; [reflexivity|].
        destruct (finish_events_sink host Hag) as [He Hl].
        rewrite erase_logs_app, logs_of_app, owed_logs_app, Hlogs, Hl.
        fold host0 in He. rewrite He.
        destruct Hag as [-> _]. split; reflexivity.
      + split; [reflexivity|]. apply Habort.
    - rewrite (@execute_setup_thrown host raw_requests e Hs).
      rewrite (@execute_setup_thrown host0 raw_requests e Hs0).
      repeat split. }
  cbv zeta in *. destruct Hmain as (Hret & Herase & Hlogs).
  repeat split; auto.
  - rewrite <- Herase. symmetry. apply erase_logs_targets.
  - rewrite <- Herase. symmetry. apply erase_logs_targets.
Qed.

(** ** Sync before success responses *)

Lemma split_middle {A} (x : A) (l1 l2 l3 : list A) :
  ~ In x l1 -> ~ In x l3 ->
  forall pre post,
    l1 ++ l2 ++ l3 = pre ++ x :: post ->
    exists a b, l2 = a ++ x :: b /\ pre = l1 ++ a /\ post = b ++ l3.
Proof.
  intros H1 H3. induction l1 as [|y l1 IH]; intros pre post Heq.
  - simpl in Heq. apply app_eq_app in Heq.
    destruct Heq as [l [[-> Hl]|[-> Hl]]].
    + destruct l as [|z l].
      * simpl in Hl. elim H3. rewrite <- Hl. now left.
      * injection Hl as <- ->. exists pre, l. auto.
    + elim H3. rewrite Hl. apply in_or_app. right. now left.
  - destruct pre as [|z pre]; simpl in Heq.
    + injection Heq as -> _. elim H1. now left.
    + injection Heq as <- Heq.
      destruct (IH (fun H => H1 (or_intror H)) pre post Heq)
        as (a & b & -> & -> & ->).
      exists a, b. auto.
Qed.

Lemma stat_events_members (host : Host) (st : StatRecord) (ev : Event) :
  In ev (stat_events host st) -> ev = EvStat st \/ is_log ev = true.
Proof.
  unfold stat_events. destruct (report_statistics_throws host st); simpl.
  - intros [<-|[<-|[]]]; auto.
  - intros [<-|[]]; auto.
Qed.

(** Event lists that hold no success response. *)
Lemma no_success_in_stat_events (host : Host) (st : StatRecord)
  (r : Request) :
  ~ In (EvSend r None) (stat_events host st).
Proof.
  intros H. apply stat_events_members in H.
  destruct H as [H|H]; discriminate H.
Qed.

Lemma no_success_in_releases (l : list Request) (r : Request) :
  ~ In (EvSend r None) (map EvRelease l).
Proof.
  intros H. apply in_map_iff in H. destruct H as (? & H & _).
  discriminate H.
Qed.

Lemma no_success_in_error_sends {A} (f : A -> Request) (l : list A)
  (err : TRITONSERVER_Error) (r : Request) :
  ~ In (EvSend r None) (map (fun x => EvSend (f x) (Some err)) l).
Proof.
  intros H. apply in_map_iff in H. destruct H as (? & H & _).
  discriminate H.
Qed.

Lemma no_success_in_abort_events (host : Host) (raw_requests : list Request)
  (s : Frame) (e : TritonException) (r : Request) :
  ~ In (EvSend r None) (abort_events host raw_requests s e).
Proof.
  unfold abort_events. intros H.
  apply in_app_or in H. destruct H as [H|H].
  { exact (@no_success_in_error_sends _ response_request _ _ _ H). }
  apply in_app_or in H. destruct H as [H|H].
  { exact (@no_success_in_error_sends _ (fun q => q) _ _ _ H). }
  apply in_app_or in H. destruct H as [H|H].
  - exact (@no_success_in_stat_events _ _ _ H).
  - exact (@no_success_in_releases _ _ H).
Qed.

Lemma no_success_in_finish_events (host : Host) (s : Frame) (r : Request) :
  ~ In (EvSend r None) (finish_events host s).
Proof. unfold finish_events. apply no_success_in_stat_events. Qed.

Lemma compute_attempt_success (host : Host) (batch_requests : list Request)
  (target_memory : MemoryType) (output_shapes : list (list Z))
  (input : Tensor) (proba : bool) (evs : list Event) (k : nat) :
  compute_attempt host batch_requests target_memory output_shapes input
    proba = (evs, k, None) ->
  let ob := mkOutput batch_requests output_shapes target_memory in
  evs = [EvPredict input ob proba; EvSync ob].
Proof.
  unfold compute_attempt.
  destruct (get_output_batch_throws host _ _ _); [discriminate|].
  destruct (predict_throws host _ _ _); [discriminate|].
  destruct (sync_throws host _); [discriminate|].
  now intros [= <- _].
Qed.

Lemma compute_attempt_members (host : Host) (batch_requests : list Request)
  (target_memory : MemoryType) (output_shapes : list (list Z))
  (input : Tensor) (proba : bool) (r : Request)
  (err : option TRITONSERVER_Error) :
  ~ In (EvSend r err)
      (fst (fst (compute_attempt host batch_requests target_memory
                   output_shapes input proba))).
Proof.
  pose proof (compute_attempt_cases host batch_requests target_memory
                output_shapes input proba) as H.
  cbv zeta in H.
  destruct H as [(-> & _)|[(-> & _)|(-> & _)]]; simpl;
    intuition discriminate.
Qed.

(** Within one iteration, a success response follows the prediction
    and the sync of the output batch staged for the extent. *)
Lemma batch_events_synced (host : Host) (model_state : ModelState)
  (target_memory : MemoryType) (requests : list Request) (b : InputBatch)
  (t0 : nat) (pre post : list Event) (r : Request) :
  fst (batch_events host model_state target_memory requests b t0) =
    pre ++ EvSend r None :: post ->
  exists input output proba sent rest,
    pre =
      [EvPredict input output proba; EvSync output] ++
      map (fun q => EvSend q None) sent /\
    out_requests output = sent ++ r :: rest.
Proof.
  unfold batch_events.
  set (breqs := slice (fst (extent b)) (snd (extent b)) requests).
  set (osh := map (output_shape_of model_state) (shapes b)).
  pose proof (@compute_attempt_members host breqs target_memory osh (data b)
                (predict_proba model_state) r None) as Hmem.
  destruct (compute_attempt host breqs target_memory osh (data b)
              (predict_proba model_state)) as [[evs k] [e|]] eqn:Hc;
    cbn [fst snd] in *; intros Heq.
  - exfalso.
    assert (Hin : In (EvSend r None) (pre ++ EvSend r None :: post))
      by (apply in_or_app; right; now left).
    rewrite <- Heq in Hin.
    apply in_app_or in Hin. destruct Hin as [Hin|Hin]; [now apply Hmem|].
    apply in_app_or in Hin. destruct Hin as [Hin|Hin].
    { exact (@no_success_in_error_sends _ (fun q => q) _ _ _ Hin). }
    apply in_app_or in Hin. destruct Hin as [Hin|Hin].
    + exact (@no_success_in_stat_events _ _ _ Hin).
    + exact (@no_success_in_releases _ _ Hin).
  - apply compute_attempt_success in Hc. cbv zeta in Hc.
    apply split_middle in Heq.
    + destruct Heq as (a & rest' & Hsplit & -> & _).
      apply map_eq_app in Hsplit.
      destruct Hsplit as (sent & tl & Hb & <- & Htl).
      destruct tl as [|q tl]; [discriminate|].
      simpl in Htl. injection Htl as -> _.
      exists (data b), (mkOutput breqs osh target_memory),
        (predict_proba model_state), sent, tl.
      rewrite Hc. split; [reflexivity|exact Hb].
    + exact Hmem.
    + intros Hin. apply in_app_or in Hin. destruct Hin as [Hin|Hin].
      * exact (@no_success_in_stat_events _ _ _ Hin).
      * exact (@no_success_in_releases _ _ Hin).
Qed.

Lemma sync_precedes_sends_nil : sync_precedes_sends [].
Proof. intros [|x pre] r post H; discriminate. Qed.

Lemma sync_precedes_sends_app (tr evs : list Event) :
  sync_precedes_sends tr ->
  (forall pre r post,
     evs = pre ++ EvSend r None :: post ->
     exists input output proba sent rest,
       pre =
         [EvPredict input output proba; EvSync output] ++
         map (fun q => EvSend q None) sent /\
       out_requests output = sent ++ r :: rest) ->
  sync_precedes_sends (tr ++ evs).
Proof.
  intros Htr Hevs pre r post Heq.
  apply app_eq_app in Heq. destruct Heq as [l [[Htl Hl]|[-> Hl]]].
  - destruct l as [|x l].
    + simpl in Hl. symmetry in Hl.
      destruct (Hevs [] r post Hl) as (? & ? & ? & ? & ? & H & _).
      discriminate H.
    + injection Hl as <- _. exact (Htr _ _ _ Htl).
  - destruct (Hevs l r post Hl)
      as (input & output & proba & sent & rest & -> & Hout).
    exists tr, input, output, proba, sent, rest. auto.
Qed.

Lemma sync_precedes_sends_quiet (tr evs : list Event) :
  sync_precedes_sends tr ->
  (forall r, ~ In (EvSend r None) evs) ->
  sync_precedes_sends (tr ++ evs).
Proof.
  intros Htr Hq. apply sync_precedes_sends_app; [exact Htr|].
  intros pre r post ->. elim (Hq r). apply in_or_app. right. now left.
Qed.

(** C7: in every invocation, each success response in the trace comes
    after the prediction call of its batch and the sync of the output
    batch staged for that batch's requests, in that order, with only
    success responses to earlier requests of the same batch in
    between; no success response is routed before the sync. *)
Theorem success_responses_follow_sync (host : Host)
  (raw_requests : list Request) :
  sync_precedes_sends
    (trace (fst (TRITONBACKEND_ModelInstanceExecute host raw_requests))).
Proof.
  destruct (setup host) as [[model_state target_memory]|e] eqn:Hs.
  - rewrite (@execute_run host raw_requests model_state target_memory Hs).
    cbv zeta. unfold batch_loop.
    destruct (for_each _ _ loop_entry) as [s out] eqn:Hloop.
    apply (@loop_trace_invariant host model_state target_memory
             raw_requests sync_precedes_sends) in Hloop.
    + destruct Hloop as [Hrs Hsync].
      assert (Habort : forall e,
        sync_precedes_sends (trace s ++ abort_events host raw_requests s e)).
      { intros e. apply sync_precedes_sends_quiet; [exact Hsync|].
        intros r. apply no_success_in_abort_events. }
      destruct out as [[]|e];
        [destruct (snd (get_input_batches host raw_requests target_memory))
           as [e|]|]; cbn [fst snd trace]; try apply Habort.
      apply sync_precedes_sends_quiet; [exact Hsync|].
      intros r. apply no_success_in_finish_events.
    + intros tr b t0 Htr. apply sync_precedes_sends_app; [exact Htr|].
      intros pre r post Heq.
      exact (batch_events_synced _ _ _ _ _ _ _ _ _ Heq).
    + reflexivity.
    + apply sync_precedes_sends_nil.
  - rewrite (@execute_setup_thrown host raw_requests e Hs).
    apply sync_precedes_sends_nil.
Qed.

Lemma success_responses_follow_sync_witness :
  let output := mkOutput [10; 11] [[4]; [1]]%Z MEMORY_GPU in
  exists before input output' proba sent rest,
    [EvPredict 0 output false; EvSync output; EvSend 10 None] =
      before ++ [EvPredict input output' proba; EvSync output'] ++
      map (fun q => EvSend q None) sent /\
    out_requests output' = sent ++ 11 :: rest.
Proof.
  intros output.
  apply (@success_responses_follow_sync Scenario.two_batches [10; 11; 12]
           [EvPredict 0 output false; EvSync output; EvSend 10 None] 11
           [EvStat (StatRequests [10; 11] true 101 102 103 104);
            EvRelease 10; EvRelease 11;
            EvPredict 1 (mkOutput [12] [[8]]%Z MEMORY_GPU) false;
            EvSend 12 (Some (error Scenario.compute_error));
            EvStat (StatRequests [12] false 105 105 107 108);
            EvRelease 12;
            EvStat (StatBatch 13 100 100 109 109)]).
  reflexivity.
Defined.

(** ** Planning failures *)

Lemma stat_events_shape (host : Host) (st : StatRecord) :
  exists log_lines, stat_events host st = EvStat st :: map EvLog log_lines.
Proof.
  unfold stat_events. destruct (report_statistics_throws host st) as [e|].
  - exists [what e]. reflexivity.
  - exists []. reflexivity.
Qed.

Lemma loop_responses_cleared (host : Host) (model_state : ModelState)
  (target_memory : MemoryType) (requests : list Request)
  (batches : list InputBatch) (s s' : Frame) (out : Outcome unit) :
  responses s = [] ->
  for_each batches (process_batch host model_state target_memory requests)
    s = (s', out) ->
  responses s' = [] /\ exists tail, trace s' = trace s ++ tail.
Proof.
  intros Hrs Hrun.
  apply (@loop_trace_invariant host model_state target_memory requests
           (fun tr => exists tail, tr = trace s ++ tail)) in Hrun; auto.
  - intros tr b t0 [tail ->]. rewrite <- app_assoc. eauto.
  - exists []. now rewrite app_nil_r.
Qed.

(** ** Compute failures *)

(** C2: when the compute step of a batch throws (staging the output,
    the prediction or the sync), the iteration still completes: after
    the calls attempted, the error of that exception is sent to the
    requests of the extent and to no one else, one failure statistic is
    reported for them, they are released, the progress is the end of
    the extent, and the loop goes on with the batches that follow; the
    trace of the invocation extends the trace reached there.  When
    moreover the planner does not fail and the later responses can be
    constructed, the entry point returns success. *)
Theorem compute_failure_stays_in_batch (host : Host)
  (raw_requests : list Request) (model_state : ModelState)
  (target_memory : MemoryType) (before : list InputBatch) (b : InputBatch)
  (rest : list InputBatch) (perr : option TritonException)
  (e : TritonException) (attempted : list Event) (k : nat) :
  setup host = Normal (model_state, target_memory) ->
  get_input_batches host raw_requests target_memory =
    (before ++ b :: rest, perr) ->
  responses_constructible host raw_requests (before ++ [b]) ->
  compute_attempt host
    (slice (fst (extent b)) (snd (extent b)) raw_requests) target_memory
    (map (output_shape_of model_state) (shapes b)) (data b)
    (predict_proba model_state) = (attempted, k, Some e) ->
  let body := process_batch host model_state target_memory raw_requests in
  let batch_requests :=
    slice (fst (extent b)) (snd (extent b)) raw_requests in
  let r := TRITONBACKEND_ModelInstanceExecute host raw_requests in
  exists s s' t1 t2 log_lines later,
    for_each before body loop_entry = (s, Normal tt) /\
    body b s = (s', Normal tt) /\
    trace s' =
      trace s ++ attempted ++
      map (fun q => EvSend q (Some (error e))) batch_requests ++
      EvStat
        (StatRequests batch_requests false (steady_clock host (ticks s))
           (steady_clock host (ticks s)) t1 t2) ::
      map EvLog log_lines ++
      map EvRelease batch_requests /\
    send_targets attempted = [] /\
    release_targets attempted = [] /\
    end_request s' = snd (extent b) /\
    responses s' = [] /\
    for_each (before ++ b :: rest) body loop_entry = for_each rest body s' /\
    trace (fst r) = trace s' ++ later /\
    (perr = None -> responses_constructible host raw_requests rest ->
     snd r = None).
Proof.
  intros Hs Hp Hok Hc. cbv zeta.
  assert (Hok_before : responses_constructible host raw_requests before).
  { intros b' Hb'. apply Hok. apply in_or_app. now left. }
  assert (Hok_b :
    construct_responses_throws host
      (slice (fst (extent b)) (snd (extent b)) raw_requests) = None).
  { apply Hok. apply in_or_app. right. now left. }
  destruct (@loop_completes host model_state target_memory raw_requests
              before loop_entry eq_refl Hok_before)
    as (s & Hrun & _ & _ & _).
  destruct (@loop_responses_cleared host model_state target_memory
              raw_requests before loop_entry s (Normal tt) eq_refl Hrun)
    as [Hrs _].
  pose proof (@process_batch_run host model_state target_memory raw_requests
                b s Hrs) as Hb.
  rewrite Hok_b in Hb. cbv zeta in Hb.
  unfold batch_events in Hb. rewrite Hc in Hb. cbn [fst snd] in Hb.
  match type of Hb with
  | context [stat_events host ?st] =>
      destruct (stat_events_shape host st) as [log_lines Hshape]
  end.
  rewrite Hshape in Hb.
  pose proof (compute_attempt_cases host
                (slice (fst (extent b)) (snd (extent b)) raw_requests)
                target_memory
                (map (output_shape_of model_state) (shapes b)) (data b)
                (predict_proba model_state)) as Hcases.
  cbv zeta in Hcases. rewrite Hc in Hcases. cbn [fst snd] in Hcases.
  assert (Hloop :
    for_each (before ++ b :: rest)
      (process_batch host model_state target_memory raw_requests)
      loop_entry =
    for_each rest
      (process_batch host model_state target_memory raw_requests)
      (fst (process_batch host model_state target_memory raw_requests b
              s))).
  { rewrite for_each_app, Hrun. simpl. unfold bind at 1.
    rewrite Hb. reflexivity. }
  rewrite Hb in Hloop. cbn [fst] in Hloop.
  match type of Hb with
  | _ = (?f, _) => set (s' := f) in *
  end.
  destruct (for_each rest
              (process_batch host model_state target_memory raw_requests)
              s') as [s_end out] eqn:Hrest.
  destruct (@loop_responses_cleared host model_state target_memory
              raw_requests rest s' s_end out eq_refl Hrest)
    as [_ [tail Htail]].
  pose proof (@execute_run host raw_requests model_state target_memory Hs)
    as Hexec.
  cbv zeta in Hexec. rewrite Hp in Hexec. cbn [fst snd] in Hexec.
  unfold batch_loop in Hexec. rewrite Hloop in Hexec.
  assert (Hlater : exists later,
    trace (fst (TRITONBACKEND_ModelInstanceExecute host raw_requests)) =
    trace s' ++ later).
  { rewrite Hexec.
    destruct out as [[]|e']; [destruct perr as [e'|]|];
      cbn [fst trace]; rewrite Htail, <- app_assoc; eexists; reflexivity. }
  destruct Hlater as [later Hlater].
  eexists s, s', _, _, log_lines, later.
  split; [exact Hrun|]. split; [exact Hb|].
  split; [reflexivity|].
  split.
  { destruct Hcases as [(-> & _)|[(-> & _)|(-> & _)]]; reflexivity. }
  split.
  { destruct Hcases as [(-> & _)|[(-> & _)|(-> & _)]]; reflexivity. }
  split; [reflexivity|]. split; [reflexivity|].
  split; [rewrite Hrest; exact Hloop|].
  split; [exact Hlater|].
  intros -> Hok_rest. rewrite Hexec.
  destruct (@loop_completes host model_state target_memory raw_requests
              rest s' eq_refl Hok_rest) as (s2 & Hrun2 & _).
  rewrite Hrest in Hrun2. injection Hrun2 as _ ->. reflexivity.
Qed.

Lemma compute_failure_stays_in_batch_witness :
  let host := Scenario.two_batches in
  let raw_requests := [10; 11; 12] in
  let model_state := Scenario.regressor in
  let target_memory := MEMORY_GPU in
  let before := [mkBatch 0 [[4; 2]; [1; 2]]%Z (0, 2)] in
  let b := mkBatch 1 [[8; 2]]%Z (2, 3) in
  let rest : list InputBatch := [] in
  let perr : option TritonException := None in
  let e := Scenario.compute_error in
  let attempted :=
    [EvPredict 1 (mkOutput [12] [[8%Z]] MEMORY_GPU) false] in
  let body := process_batch host model_state target_memory raw_requests in
  let batch_requests :=
    slice (fst (extent b)) (snd (extent b)) raw_requests in
  let r := TRITONBACKEND_ModelInstanceExecute host raw_requests in
  exists s s' t1 t2 log_lines later,
    for_each before body loop_entry = (s, Normal tt) /\
    body b s = (s', Normal tt) /\
    trace s' =
      trace s ++ attempted ++
      map (fun q => EvSend q (Some (error e))) batch_requests ++
      EvStat
        (StatRequests batch_requests false (steady_clock host (ticks s))
           (steady_clock host (ticks s)) t1 t2) ::
      map EvLog log_lines ++
      map EvRelease batch_requests /\
    send_targets attempted = [] /\
    release_targets attempted = [] /\
    end_request s' = snd (extent b) /\
    responses s' = [] /\
    for_each (before ++ b :: rest) body loop_entry = for_each rest body s' /\
    trace (fst r) = trace s' ++ later /\
    (perr = None -> responses_constructible host raw_requests rest ->
     snd r = None).
Proof.
  intros host raw_requests model_state target_memory before b rest perr e
    attempted.
  apply (@compute_failure_stays_in_batch host raw_requests model_state
           target_memory before b rest perr e attempted 1).
  - reflexivity.
  - reflexivity.
  - intros b' _. reflexivity.
  - reflexivity.
Defined.

(** ** The scenarios of the specification, evaluated *)

(** Rows 4, 1 and 8 in two batches, the second prediction failing:
    requests 10 and 11 get success responses, request 12 the error,
    all three are released and the entry point returns success. *)
Example two_batches_trace :
  TRITONBACKEND_ModelInstanceExecute Scenario.two_batches [10; 11; 12] =
  (mkFrame
     [EvPredict 0 (mkOutput [10; 11] [[4]; [1]]%Z MEMORY_GPU) false;
      EvSync (mkOutput [10; 11] [[4]; [1]]%Z MEMORY_GPU);
      EvSend 10 None; EvSend 11 None;
      EvStat (StatRequests [10; 11] true 101 102 103 104);
      EvRelease 10; EvRelease 11;
      EvPredict 1 (mkOutput [12] [[8]]%Z MEMORY_GPU) false;
      EvSend 12 (Some (error Scenario.compute_error));
      EvStat (StatRequests [12] false 105 105 107 108);
      EvRelease 12;
      EvStat (StatBatch 13 100 100 109 109)]
     10 [] 3 13%Z,
   None).
Proof. reflexivity. Qed.

(** The planner fails after its first batch: request 12 gets the
    planning error and the entry point returns it. *)
Example planner_fails_second_trace :
  TRITONBACKEND_ModelInstanceExecute Scenario.planner_fails_second
    [10; 11; 12] =
  (mkFrame
     [EvPredict 0 (mkOutput [10; 11] [[4]; [1]]%Z MEMORY_GPU) false;
      EvSync (mkOutput [10; 11] [[4]; [1]]%Z MEMORY_GPU);
      EvSend 10 None; EvSend 11 None;
      EvStat (StatRequests [10; 11] true 101 102 103 104);
      EvRelease 10; EvRelease 11;
      EvSend 12 (Some (error Scenario.planning_error));
      EvStat (StatRequests [12] false 100 100 105 105);
      EvRelease 12]
     6 [] 2 5%Z,
   Some (error Scenario.planning_error)).
Proof. reflexivity. Qed.

(** A sink that fails on every report changes nothing but the log. *)
Example failing_sink_trace :
  TRITONBACKEND_ModelInstanceExecute
    (with_statistics_sink Scenario.one_failing_batch
       (fun _ => Some Scenario.stat_error)) [10] =
  (mkFrame
     [EvPredict 1 (mkOutput [10] [[4]]%Z MEMORY_GPU) false;
      EvSend 10 (Some (error Scenario.compute_error));
      EvStat (StatRequests [10] false 101 101 103 104);
      EvLog (what Scenario.stat_error);
      EvRelease 10;
      EvStat (StatBatch 4 100 100 105 105);
      EvLog (what Scenario.stat_error)]
     6 [] 1 4%Z,
   None).
Proof. reflexivity. Qed.

(** ** Further properties of the execute path *)

Lemma prefix_of_app {A} (l1 l2 p q : list A) :
  l1 ++ l2 = p ++ q ->
  (exists m, l1 = p ++ m) \/ (exists m, p = l1 ++ m /\ l2 = m ++ q).
Proof.
  intros H. apply app_eq_app in H.
  destruct H as [m [[H1 H2]|[H1 H2]]]; eauto.
Qed.

(** Appending events that first only send and then only release what
    was just sent keeps every release behind its send. *)
Lemma sent_before_released_step (tr X Y : list Event) :
  sent_before_released tr ->
  release_targets X = [] ->
  incl (release_targets Y) (send_targets X) ->
  sent_before_released (tr ++ X ++ Y).
Proof.
  intros Htr HX HY p q Heq.
  apply prefix_of_app in Heq. destruct Heq as [[m Hm]|[m [-> Hm]]].
  - exact (Htr p m Hm).
  - rewrite release_targets_app, send_targets_app.
    apply incl_app.
    + apply incl_appl. apply (Htr tr []). now rewrite app_nil_r.
    + apply incl_appr.
      apply prefix_of_app in Hm. destruct Hm as [[l Hl]|[l [-> Hl]]].
      * rewrite Hl, release_targets_app in HX.
        apply app_eq_nil in HX. destruct HX as [-> _].
        apply incl_nil_l.
      * rewrite release_targets_app, send_targets_app, HX. simpl.
        apply incl_appl.
        rewrite Hl, release_targets_app in HY.
        intros r Hr. apply HY. apply in_or_app. now left.
Qed.

Lemma release_targets_attempt (host : Host) (batch_requests : list Request)
  (target_memory : MemoryType) (output_shapes : list (list Z))
  (input : Tensor) (proba : bool) :
  let evs :=
    fst (fst (compute_attempt host batch_requests target_memory
                output_shapes input proba)) in
  release_targets evs = [] /\ send_targets evs = [].
Proof.
  pose proof (compute_attempt_cases host batch_requests target_memory
                output_shapes input proba) as H.
  cbv zeta in *.
  destruct H as [(-> & _)|[(-> & _)|(-> & _)]]; split; reflexivity.
Qed.

(** One iteration: everything up to the statistic, then the releases
    of the requests just answered. *)
Lemma batch_events_shape (host : Host) (model_state : ModelState)
  (target_memory : MemoryType) (requests : list Request) (b : InputBatch)
  (t0 : nat) :
  let batch_requests :=
    slice (fst (extent b)) (snd (extent b)) requests in
  exists X,
    fst (batch_events host model_state target_memory requests b t0) =
      X ++ map EvRelease batch_requests /\
    release_targets X = [] /\
    send_targets X = batch_requests.
Proof.
  cbv zeta. unfold batch_events.
  set (breqs := slice (fst (extent b)) (snd (extent b)) requests).
  pose proof (release_targets_attempt host breqs target_memory
                (map (output_shape_of model_state) (shapes b)) (data b)
                (predict_proba model_state)) as H.
  cbv zeta in H.
  destruct (compute_attempt host breqs target_memory _ _ _)
    as [[evs k] [e|]]; cbn [fst snd] in *; destruct H as [Hr Hs].
  - eexists (evs ++ map (fun r => EvSend r (Some (error e))) breqs ++
             stat_events host _).
    split; [now rewrite <- !app_assoc|].
    rewrite !release_targets_app, !send_targets_app, Hr, Hs,
      release_targets_sends, release_targets_stat_events,
      send_targets_sends, send_targets_stat_events.
    simpl. rewrite ?app_nil_r. split; reflexivity.
  - eexists (evs ++ map (fun r => EvSend r None) breqs ++
             stat_events host _).
    split; [now rewrite <- !app_assoc|].
    rewrite !release_targets_app, !send_targets_app, Hr, Hs,
      release_targets_sends, release_targets_stat_events,
      send_targets_sends, send_targets_stat_events.
    simpl. rewrite ?app_nil_r. split; reflexivity.
Qed.

Lemma release_targets_response_sends (rs : list Response)
  (err : option TRITONSERVER_Error) :
  release_targets (map (fun r => EvSend (response_request r) err) rs) = [].
Proof. induction rs as [|r l IH]; simpl; auto. Qed.

Lemma abort_events_shape (host : Host) (raw_requests : list Request)
  (s : Frame) (e : TritonException) :
  let remaining := skipn (end_request s) raw_requests in
  exists X,
    abort_events host raw_requests s e = X ++ map EvRelease remaining /\
    release_targets X = [] /\
    incl remaining (send_targets X).
Proof.
  cbv zeta. unfold abort_events.
  set (rem := skipn (end_request s) raw_requests).
  eexists (map (fun r => EvSend (response_request r) (Some (error e)))
             (responses s) ++
           map (fun r => EvSend r (Some (error e))) rem ++
           stat_events host _).
  split; [now rewrite <- !app_assoc|].
  rewrite !release_targets_app, release_targets_response_sends,
    release_targets_sends, release_targets_stat_events, !send_targets_app,
    send_targets_sends.
  split; [reflexivity|].
  apply incl_appr. apply incl_appl. apply incl_refl.
Qed.

(** X1: at every point of every invocation, each request released so
    far has already been sent its terminal outcome; no request is
    released before it is answered. *)
Theorem requests_released_after_answer (host : Host)
  (raw_requests : list Request) :
  sent_before_released
    (trace (fst (TRITONBACKEND_ModelInstanceExecute host raw_requests))).
Proof.
  assert (Hnil : sent_before_released []).
  { intros p q H. symmetry in H. apply app_eq_nil in H.
    destruct H as [-> _]. apply incl_nil_l. }
  destruct (setup host) as [[model_state target_memory]|e] eqn:Hs.
  - rewrite (@execute_run host raw_requests model_state target_memory Hs).
    cbv zeta. unfold batch_loop.
    destruct (for_each _ _ loop_entry) as [s out] eqn:Hloop.
    apply (@loop_trace_invariant host model_state target_memory
             raw_requests sent_before_released) in Hloop;
      [|clear Hloop|reflexivity|exact Hnil].
    + destruct Hloop as [_ Hinv].
      assert (Habort : forall e,
        sent_before_released
          (trace s ++ abort_events host raw_requests s e)).
      { intros e.
        destruct (abort_events_shape host raw_requests s e)
          as (X & -> & HX & HS).
        apply sent_before_released_step; [exact Hinv|exact HX|].
        now rewrite release_targets_releases. }
      destruct out as [[]|e];
        [destruct (snd (get_input_batches host raw_requests target_memory))
           as [e|]|]; cbn [fst snd trace]; try apply Habort.
      rewrite <- (app_nil_r (finish_events host s)).
      apply sent_before_released_step; [exact Hinv| |].
      * unfold finish_events. apply release_targets_stat_events.
      * apply incl_nil_l.
    + intros tr b t0 Htr.
      destruct (batch_events_shape host model_state target_memory
                  raw_requests b t0) as (X & -> & HX & HS).
      apply sent_before_released_step; [exact Htr|exact HX|].
      rewrite release_targets_releases, HS. apply incl_refl.
  - rewrite (@execute_setup_thrown host raw_requests e Hs). exact Hnil.
Qed.

Lemma requests_released_after_answer_witness :
  incl
    (release_targets
       [EvPredict 0 (mkOutput [10; 11] [[4]; [1]]%Z MEMORY_GPU) false;
        EvSync (mkOutput [10; 11] [[4]; [1]]%Z MEMORY_GPU);
        EvSend 10 None; EvSend 11 None;
        EvStat (StatRequests [10; 11] true 101 102 103 104);
        EvRelease 10])
    (send_targets
       [EvPredict 0 (mkOutput [10; 11] [[4]; [1]]%Z MEMORY_GPU) false;
        EvSync (mkOutput [10; 11] [[4]; [1]]%Z MEMORY_GPU);
        EvSend 10 None; EvSend 11 None;
        EvStat (StatRequests [10; 11] true 101 102 103 104);
        EvRelease 10]).
Proof.
  apply (@requests_released_after_answer Scenario.two_batches [10; 11; 12]
           [EvPredict 0 (mkOutput [10; 11] [[4]; [1]]%Z MEMORY_GPU) false;
            EvSync (mkOutput [10; 11] [[4]; [1]]%Z MEMORY_GPU);
            EvSend 10 None; EvSend 11 None;
            EvStat (StatRequests [10; 11] true 101 102 103 104);
            EvRelease 10]
           [EvRelease 11;
            EvPredict 1 (mkOutput [12] [[8]]%Z MEMORY_GPU) false;
            EvSend 12 (Some (error Scenario.compute_error));
            EvStat (StatRequests [12] false 105 105 107 108);
            EvRelease 12;
            EvStat (StatBatch 13 100 100 109 109)]).
  reflexivity.
Defined.

(** *** Outcomes reported and outcomes sent *)

Lemma sent_outcomes_app (t1 t2 : list Event) :
  sent_outcomes (t1 ++ t2) = sent_outcomes t1 ++ sent_outcomes t2.
Proof. apply flat_map_app. Qed.

Lemma reported_outcomes_app (t1 t2 : list Event) :
  reported_outcomes (t1 ++ t2) =
  reported_outcomes t1 ++ reported_outcomes t2.
Proof. apply flat_map_app. Qed.

Lemma outcomes_of_attempt (host : Host) (batch_requests : list Request)
  (target_memory : MemoryType) (output_shapes : list (list Z))
  (input : Tensor) (proba : bool) :
  let evs :=
    fst (fst (compute_attempt host batch_requests target_memory
                output_shapes input proba)) in
  sent_outcomes evs = [] /\ reported_outcomes evs = [].
Proof.
  pose proof (compute_attempt_cases host batch_requests target_memory
                output_shapes input proba) as H.
  cbv zeta in *.
  destruct H as [(-> & _)|[(-> & _)|(-> & _)]]; split; reflexivity.
Qed.

Lemma outcomes_of_sends (l : list Request)
  (err : option TRITONSERVER_Error) :
  sent_outcomes (map (fun r => EvSend r err) l) =
    map (fun r => (r, match err with None => true | Some _ => false end)) l /\
  reported_outcomes (map (fun r => EvSend r err) l) = [].
Proof.
  induction l as [|r l [IH1 IH2]]; [auto|].
  simpl. rewrite IH1, IH2. destruct err; auto.
Qed.

Lemma outcomes_of_releases (l : list Request) :
  sent_outcomes (map EvRelease l) = [] /\
  reported_outcomes (map EvRelease l) = [].
Proof. induction l as [|r l [IH1 IH2]]; simpl; auto. Qed.

Lemma outcomes_of_stat_events (host : Host) (st : StatRecord) :
  sent_outcomes (stat_events host st) = [] /\
  reported_outcomes (stat_events host st) =
    match st with
    | StatRequests l ok _ _ _ _ => map (fun r => (r, ok)) l
    | StatBatch _ _ _ _ _ => []
    end.
Proof.
  unfold stat_events.
  destruct (report_statistics_throws host st); destruct st; simpl;
    rewrite ?app_nil_r; auto.
Qed.

Lemma batch_events_outcomes (host : Host) (model_state : ModelState)
  (target_memory : MemoryType) (requests : list Request) (b : InputBatch)
  (t0 : nat) :
  reported_outcomes
    (fst (batch_events host model_state target_memory requests b t0)) =
  sent_outcomes
    (fst (batch_events host model_state target_memory requests b t0)).
Proof.
  unfold batch_events.
  set (breqs := slice (fst (extent b)) (snd (extent b)) requests).
  pose proof (outcomes_of_attempt host breqs target_memory
                (map (output_shape_of model_state) (shapes b)) (data b)
                (predict_proba model_state)) as H.
  cbv zeta in H.
  destruct (compute_attempt host breqs target_memory _ _ _)
    as [[evs k] [e|]]; cbn [fst snd] in *; destruct H as [Hs Hr];
    rewrite !sent_outcomes_app, !reported_outcomes_app, Hs, Hr;
    match goal with
    | |- context [stat_events host ?st] =>
        destruct (outcomes_of_stat_events host st) as [-> ->]
    end;
    match goal with
    | |- context [map (fun r => EvSend r ?err) breqs] =>
        destruct (outcomes_of_sends breqs err) as [-> ->]
    end;
    destruct (outcomes_of_releases breqs) as [-> ->];
    simpl; rewrite ?app_nil_r; reflexivity.
Qed.

(** X2: in every invocation the outcomes reported to the statistics
    sink are, request by request and in order, the outcomes sent: a
    request is named by a per-request statistic exactly when it was
    sent a terminal outcome, and it is reported as a success exactly
    when the response sent to it was a success response. *)
Theorem reported_outcomes_match_responses (host : Host)
  (raw_requests : list Request) :
  let tr :=
    trace (fst (TRITONBACKEND_ModelInstanceExecute host raw_requests)) in
  reported_outcomes tr = sent_outcomes tr.
Proof.
  cbv zeta.
  destruct (setup host) as [[model_state target_memory]|e] eqn:Hs.
  - rewrite (@execute_run host raw_requests model_state target_memory Hs).
    cbv zeta. unfold batch_loop.
    destruct (for_each _ _ loop_entry) as [s out] eqn:Hloop.
    apply (@loop_trace_invariant host model_state target_memory
             raw_requests
             (fun tr => reported_outcomes tr = sent_outcomes tr)) in Hloop;
      [|clear Hloop|reflexivity|reflexivity].
    + destruct Hloop as [Hrs Hinv].
      assert (Habort : forall e,
        reported_outcomes (trace s ++ abort_events host raw_requests s e) =
        sent_outcomes (trace s ++ abort_events host raw_requests s e)).
      { intros e. unfold abort_events. rewrite Hrs. cbn [map app].
        set (rem := skipn (end_request s) raw_requests).
        rewrite !sent_outcomes_app, !reported_outcomes_app, Hinv.
        match goal with
        | |- context [stat_events host ?st] =>
            destruct (outcomes_of_stat_events host st) as [-> ->]
        end.
        destruct (outcomes_of_sends rem (Some (error e))) as [-> ->].
        destruct (outcomes_of_releases rem) as [-> ->].
        simpl. rewrite ?app_nil_r. reflexivity. }
      destruct out as [[]|e];
        [destruct (snd (get_input_batches host raw_requests target_memory))
           as [e|]|]; cbn [fst snd trace]; try apply Habort.
      rewrite sent_outcomes_app, reported_outcomes_app, Hinv.
      unfold finish_events.
      match goal with
      | |- context [stat_events host ?st] =>
          destruct (outcomes_of_stat_events host st) as [-> ->]
      end.
      reflexivity.
    + intros tr b t0 Htr.
      now rewrite sent_outcomes_app, reported_outcomes_app, Htr,
        batch_events_outcomes.
  - rewrite (@execute_setup_thrown host raw_requests e Hs). reflexivity.
Qed.

(** *** Timestamps *)

(** The statistic of one iteration with its clock readings: a reading
    on entry, then later readings in the order they were taken. *)
Lemma batch_events_stat_readings (host : Host) (model_state : ModelState)
  (target_memory : MemoryType) (requests : list Request) (b : InputBatch)
  (t0 : nat) :
  exists l ok a c d,
    stats_of (fst (batch_events host model_state target_memory requests b
                     t0)) =
      [StatRequests l ok (steady_clock host t0) (steady_clock host a)
         (steady_clock host c) (steady_clock host d)] /\
    t0 <= a /\ a <= c /\ c <= d.
Proof.
  unfold batch_events.
  set (breqs := slice (fst (extent b)) (snd (extent b)) requests).
  pose proof (compute_attempt_quiet host target_memory breqs
                (map (output_shape_of model_state) (shapes b)) (data b)
                (predict_proba model_state)) as H.
  cbv zeta in H.
  destruct (compute_attempt host breqs target_memory _ _ _)
    as [[evs k] [e|]]; cbn [fst snd] in *; destruct H as (_ & _ & Hst);
    rewrite !stats_of_app, Hst, stats_of_sends, stats_of_stat_events,
      stats_of_releases; simpl.
  - exists breqs, false, t0, (1 + k + t0), (2 + k + t0).
    split; [reflexivity|lia].
  - exists breqs, true, (1 + t0), (2 + t0), (3 + t0).
    split; [reflexivity|lia].
Qed.

(** X3: when the steady clock never goes back, every statistic handed
    to the sink in an invocation has its timestamps in order: it starts
    no later than its compute interval starts, the compute interval
    does not end before it starts, and a success or aggregate record
    ends no earlier than its compute interval. *)
Theorem statistics_are_well_timed (host : Host)
  (raw_requests : list Request) :
  monotone_clock host ->
  Forall well_timed
    (stats_of
       (trace (fst (TRITONBACKEND_ModelInstanceExecute host raw_requests)))).
Proof.
  intros Hmono.
  destruct (setup host) as [[model_state target_memory]|e] eqn:Hs.
  - rewrite (@execute_run host raw_requests model_state target_memory Hs).
    cbv zeta. unfold batch_loop.
    destruct (for_each _ _ loop_entry) as [s out] eqn:Hloop.
    apply (@loop_trace_invariant host model_state target_memory
             raw_requests
             (fun tr => Forall well_timed (stats_of tr))) in Hloop;
      [|clear Hloop|reflexivity|constructor].
    + destruct Hloop as [_ Hinv].
      assert (Hedge : forall st,
        stat_start st = steady_clock host 0 ->
        stat_compute_start st = steady_clock host 0 ->
        stat_compute_end st = steady_clock host (ticks s) ->
        stat_finish st = steady_clock host (ticks s) ->
        well_timed st).
      { intros st H1 H2 H3 H4. unfold well_timed.
        rewrite H1, H2, H3, H4.
        pose proof (Hmono 0 (ticks s) (Nat.le_0_l _)).
        repeat split; auto; lia. }
      assert (Habort : forall e,
        Forall well_timed
          (stats_of (trace s ++ abort_events host raw_requests s e))).
      { intros e. rewrite stats_of_app, abort_events_stats.
        apply Forall_app. split; [exact Hinv|].
        constructor; [|constructor]. apply Hedge; reflexivity. }
      destruct out as [[]|e];
        [destruct (snd (get_input_batches host raw_requests target_memory))
           as [e|]|]; cbn [fst snd trace]; try apply Habort.
      rewrite stats_of_app. unfold finish_events.
      rewrite stats_of_stat_events.
      apply Forall_app. split; [exact Hinv|].
      constructor; [|constructor]. apply Hedge; reflexivity.
    + intros tr b t0 Htr. rewrite stats_of_app.
      apply Forall_app. split; [exact Htr|].
      destruct (batch_events_stat_readings host model_state target_memory
                  raw_requests b t0)
        as (l & ok & a & c & d & -> & Ha & Hc & Hd).
      constructor; [|constructor]. unfold well_timed. simpl.
      pose proof (Hmono t0 a Ha). pose proof (Hmono a c Hc).
      pose proof (Hmono c d Hd).
      repeat split; auto; lia.
  - rewrite (@execute_setup_thrown host raw_requests e Hs). constructor.
Qed.

Lemma statistics_are_well_timed_witness :
  Forall well_timed
    (stats_of
       (trace (fst (TRITONBACKEND_ModelInstanceExecute Scenario.two_batches
                      [10; 11; 12])))).
Proof.
  apply (@statistics_are_well_timed Scenario.two_batches [10; 11; 12]).
  intros a b Hab. simpl. unfold Scenario.clock. lia.
Defined.

(** *** What the prediction engine is called with *)

(** As [loop_trace_invariant], for a property that depends on the
    batch being one of the plan. *)
Lemma loop_trace_invariant_in (host : Host) (model_state : ModelState)
  (target_memory : MemoryType) (requests : list Request)
  (batches : list InputBatch) (P : list Event -> Prop) :
  (forall tr b t0,
     In b batches ->
     P tr ->
     P (tr ++ fst (batch_events host model_state target_memory requests b
                     t0))) ->
  forall (s s' : Frame) (out : Outcome unit),
    responses s = [] ->
    P (trace s) ->
    for_each batches
      (process_batch host model_state target_memory requests) s =
      (s', out) ->
    P (trace s').
Proof.
  intros Hstep.
  assert (Hgen : forall rest, incl rest batches ->
    forall (s s' : Frame) (out : Outcome unit),
      responses s = [] ->
      P (trace s) ->
      for_each rest
        (process_batch host model_state target_memory requests) s =
        (s', out) ->
      P (trace s')).
  { induction rest as [|b rest IH]; intros Hincl s s' out Hrs HP Hrun.
    - simpl in Hrun. injection Hrun as <- <-. exact HP.
    - rewrite for_each_batch_cons in Hrun by exact Hrs.
      destruct (construct_responses_throws host _) as [e|].
      + injection Hrun as <- <-. exact HP.
      + cbv zeta in Hrun.
        apply IH in Hrun; auto.
        * intros x Hx. apply Hincl. now right.
        * simpl. apply Hstep; [|exact HP]. apply Hincl. now left. }
  apply Hgen. apply incl_refl.
Qed.

Lemma predict_in_batch_events (host : Host) (model_state : ModelState)
  (target_memory : MemoryType) (requests : list Request) (b : InputBatch)
  (t0 : nat) (input : Tensor) (output : OutputBatch) (proba : bool) :
  In (EvPredict input output proba)
    (fst (batch_events host model_state target_memory requests b t0)) ->
  call_for_batch model_state target_memory requests b input output proba.
Proof.
  unfold batch_events.
  set (breqs := slice (fst (extent b)) (snd (extent b)) requests).
  pose proof (compute_attempt_cases host breqs target_memory
                (map (output_shape_of model_state) (shapes b)) (data b)
                (predict_proba model_state)) as H.
  cbv zeta in H.
  assert (Hevs : forall evs,
    evs = fst (fst (compute_attempt host breqs target_memory
                      (map (output_shape_of model_state) (shapes b))
                      (data b) (predict_proba model_state))) ->
    In (EvPredict input output proba) evs ->
    call_for_batch model_state target_memory requests b input output proba).
  { intros evs -> Hin.
    destruct H as [(Hev & _)|[(Hev & _)|(Hev & _)]]; rewrite Hev in Hin;
      simpl in Hin.
    - contradiction.
    - destruct Hin as [[= <- <- <-]|[]]. repeat split.
    - destruct Hin as [[= <- <- <-]|[Hin|[]]]; [|discriminate Hin].
      repeat split. }
  destruct (compute_attempt host breqs target_memory _ _ _)
    as [[evs k] [e|]]; cbn [fst snd] in *; intros Hin;
    (apply in_app_or in Hin; destruct Hin as [Hin|Hin];
     [exact (Hevs evs eq_refl Hin)|]);
    exfalso;
    (apply in_app_or in Hin; destruct Hin as [Hin|Hin];
     [apply in_map_iff in Hin; destruct Hin as (? & Hin & _);
      discriminate Hin|]);
    (apply in_app_or in Hin; destruct Hin as [Hin|Hin];
     [apply stat_events_members in Hin; destruct Hin as [Hin|Hin];
      discriminate Hin
     |apply in_map_iff in Hin; destruct Hin as (? & Hin & _);
      discriminate Hin]).
Qed.

(** X4: every prediction call of an invocation is made for a batch of
    the plan: with that batch's input tensor, with the probability
    flag of the model, and with an output batch staged in the target
    memory of the instance for exactly the requests of the batch's
    extent, with one planned shape per input shape of the batch. *)
Theorem prediction_calls_follow_the_plan (host : Host)
  (raw_requests : list Request) (model_state : ModelState)
  (target_memory : MemoryType) (input : Tensor) (output : OutputBatch)
  (proba : bool) :
  setup host = Normal (model_state, target_memory) ->
  In (EvPredict input output proba)
    (trace (fst (TRITONBACKEND_ModelInstanceExecute host raw_requests))) ->
  exists b,
    In b (fst (get_input_batches host raw_requests target_memory)) /\
    call_for_batch model_state target_memory raw_requests b input output
      proba /\
    List.length (out_shapes output) = List.length (shapes b).
Proof.
  intros Hs.
  rewrite (@execute_run host raw_requests model_state target_memory Hs).
  cbv zeta. unfold batch_loop.
  set (batches := fst (get_input_batches host raw_requests target_memory)).
  set (P := fun tr : list Event =>
    In (EvPredict input output proba) tr ->
    exists b,
      In b batches /\
      call_for_batch model_state target_memory raw_requests b input output
        proba /\
      List.length (out_shapes output) = List.length (shapes b)).
  destruct (for_each batches _ loop_entry) as [s out] eqn:Hloop.
  assert (Hinv : P (trace s)).
  { apply (@loop_trace_invariant_in host model_state target_memory
             raw_requests batches P) with (s := loop_entry) (s' := s)
             (out := out); auto.
    - intros tr b t0 Hb Htr Hin.
      apply in_app_or in Hin. destruct Hin as [Hin|Hin]; [now apply Htr|].
      apply predict_in_batch_events in Hin.
      exists b. split; [exact Hb|]. split; [exact Hin|].
      destruct Hin as (_ & _ & _ & _ & ->). apply length_map.
    - intros []. }
  assert (Hquiet : forall evs,
    (forall i o p, ~ In (EvPredict i o p) evs) ->
    P (trace s ++ evs)).
  { intros evs Hq Hin. apply in_app_or in Hin.
    destruct Hin as [Hin|Hin]; [now apply Hinv|]. now elim (Hq _ _ _ Hin). }
  assert (Habort : forall e, P (trace s ++ abort_events host raw_requests s e)).
  { intros e. apply Hquiet. intros i o p Hin. unfold abort_events in Hin.
    apply in_app_or in Hin. destruct Hin as [Hin|Hin].
    { apply in_map_iff in Hin. destruct Hin as (? & Hin & _).
      discriminate Hin. }
    apply in_app_or in Hin. destruct Hin as [Hin|Hin].
    { apply in_map_iff in Hin. destruct Hin as (? & Hin & _).
      discriminate Hin. }
    apply in_app_or in Hin. destruct Hin as [Hin|Hin].
    - apply stat_events_members in Hin. destruct Hin as [Hin|Hin];
        discriminate Hin.
    - apply in_map_iff in Hin. destruct Hin as (? & Hin & _).
      discriminate Hin. }
  destruct out as [[]|e];
    [destruct (snd (get_input_batches host raw_requests target_memory))
       as [e|]|]; cbn [fst snd trace]; try apply Habort.
  apply Hquiet. intros i o p Hin. unfold finish_events in Hin.
  apply stat_events_members in Hin. destruct Hin as [Hin|Hin];
    discriminate Hin.
Qed.

Lemma prediction_calls_follow_the_plan_witness :
  exists b,
    In b (fst (get_input_batches Scenario.two_batches [10; 11; 12]
                 MEMORY_GPU)) /\
    call_for_batch Scenario.regressor MEMORY_GPU [10; 11; 12] b 1
      (mkOutput [12] [[8]]%Z MEMORY_GPU) false /\
    List.length (out_shapes (mkOutput [12] [[8]]%Z MEMORY_GPU)) =
      List.length (shapes b).
Proof.
  apply (@prediction_calls_follow_the_plan Scenario.two_batches
           [10; 11; 12] Scenario.regressor MEMORY_GPU 1
           (mkOutput [12] [[8]]%Z MEMORY_GPU) false).
  - reflexivity.
  - rewrite two_batches_trace. simpl. do 7 right. left. reflexivity.
Defined.

(** *** Planning failures and the calls they exclude *)

(** Every prediction made by the loop is made for a batch of the plan. *)
Lemma loop_predictions_follow_plan (host : Host) (model_state : ModelState)
  (target_memory : MemoryType) (requests : list Request)
  (batches : list InputBatch) (s : Frame) (out : Outcome unit) :
  for_each batches
    (process_batch host model_state target_memory requests) loop_entry =
    (s, out) ->
  forall input output proba,
    In (EvPredict input output proba) (trace s) ->
    exists b,
      In b batches /\
      call_for_batch model_state target_memory requests b input output
        proba.
Proof.
  intros Hrun.
  apply (@loop_trace_invariant_in host model_state target_memory requests
           batches
           (fun tr =>
              forall input output proba,
                In (EvPredict input output proba) tr ->
                exists b,
                  In b batches /\
                  call_for_batch model_state target_memory requests b
                    input output proba))
    with (s := loop_entry) (s' := s) (out := out); auto.
  - intros tr b t0 Hb Htr input output proba Hin.
    apply in_app_or in Hin. destruct Hin as [Hin|Hin]; [now apply Htr|].
    apply predict_in_batch_events in Hin. eauto.
  - intros input output proba [].
Qed.

(** Under the planner's contract every extent of the plan is a proper
    range that ends no later than the progress reached after the last
    batch. *)
Lemma extents_end_before_progress (n : nat) (complete : bool)
  (batches : list InputBatch) :
  forall start,
    extents_partition start n batches complete = true ->
    start <= fold_left (fun _ b => snd (extent b)) batches start /\
    forall b,
      In b batches ->
      fst (extent b) <= snd (extent b) /\
      snd (extent b) <= fold_left (fun _ b => snd (extent b)) batches start.
Proof.
  induction batches as [|b rest IH]; intros start Hwf; simpl.
  - split; [lia|]. intros b [].
  - simpl in Hwf.
    apply andb_prop in Hwf. destruct Hwf as [Hwf Hrest].
    apply andb_prop in Hwf. destruct Hwf as [Hwf _].
    apply andb_prop in Hwf. destruct Hwf as [Hfst Hle].
    apply Nat.eqb_eq in Hfst. apply Nat.leb_le in Hle.
    destruct (IH _ Hrest) as [Hmono Hall].
    split; [lia|].
    intros b' [<-|Hb']; [lia|]. now apply Hall.
Qed.

Lemma NoDup_app_disjoint {A} (l1 l2 : list A) (x : A) :
  NoDup (l1 ++ l2) -> In x l1 -> ~ In x l2.
Proof.
  induction l1 as [|a l1 IH]; intros Hnd Hin; [destruct Hin|].
  simpl in Hnd. inversion Hnd as [|? ? Hnot Hnd']; subst.
  destruct Hin as [->|Hin].
  - intros Hx. apply Hnot. apply in_or_app. now right.
  - now apply IH.
Qed.

(** A range that ends at or before a position shares no request with
    the rest of the list from that position on, when the handles of
    the list are distinct. *)
Lemma slice_before_skipn_disjoint {A} (lo hi p : nat) (l : list A)
  (x : A) :
  lo <= hi -> hi <= p -> NoDup l ->
  In x (skipn p l) -> ~ In x (slice lo hi l).
Proof.
  intros Hlo Hhi Hnd Hrem Hin.
  assert (Hfirst : In x (firstn p l)).
  { replace p with (lo + ((hi - lo) + (p - hi))) by lia.
    rewrite firstn_add_skipn. apply in_or_app. right.
    rewrite firstn_add_skipn. apply in_or_app. left. exact Hin. }
  rewrite <- (firstn_skipn p l) in Hnd.
  exact (NoDup_app_disjoint _ _ _ Hnd Hfirst Hrem).
Qed.

(** C3: when the planner fails after yielding some batches, the entry
    point returns the planning error; every request from the progress
    point (the end of the last yielded extent) to the end of the list
    is sent that error and released; one failure statistic is reported
    for that remainder, from the first clock reading to the last.  The
    part of the trace that precedes the abort is exactly what the same
    batches produce when the planner ends without failing, so the
    requests handled earlier keep their outcomes.  Every prediction
    call of the invocation lies in that part and is made for a yielded
    batch, into an output batch staged for exactly the requests of
    that batch's extent; under the planner's contract on extents the
    extent ends at or before the progress point, so the output batch
    of no prediction covers a position of the remainder, and with
    distinct handles it holds no request of the remainder: no compute
    call is made for any of those requests. *)
Theorem planning_failure_aborts_remainder (host : Host)
  (raw_requests : list Request) (model_state : ModelState)
  (target_memory : MemoryType) (batches : list InputBatch)
  (e : TritonException) :
  setup host = Normal (model_state, target_memory) ->
  get_input_batches host raw_requests target_memory = (batches, Some e) ->
  responses_constructible host raw_requests batches ->
  let r := TRITONBACKEND_ModelInstanceExecute host raw_requests in
  let r_ok :=
    TRITONBACKEND_ModelInstanceExecute
      (with_planner host (fun _ _ => (batches, None))) raw_requests in
  let progress := fold_left (fun _ b => snd (extent b)) batches 0 in
  let remaining := skipn progress raw_requests in
  let all_start_time := steady_clock host 0 in
  let all_end_time := steady_clock host (ticks (fst r) - 1) in
  snd r = Some (error e) /\
  end_request (fst r) = progress /\
  exists handled log_lines aggregate,
    trace (fst r) =
      handled ++
      map (fun q => EvSend q (Some (error e))) remaining ++
      EvStat
        (StatRequests remaining false all_start_time all_start_time
           all_end_time all_end_time) ::
      map EvLog log_lines ++
      map EvRelease remaining /\
    trace (fst r_ok) = handled ++ aggregate /\
    send_targets aggregate = [] /\
    release_targets aggregate = [] /\
    (forall input output proba,
       In (EvPredict input output proba) (trace (fst r)) ->
       In (EvPredict input output proba) handled /\
       exists b,
         In b batches /\
         call_for_batch model_state target_memory raw_requests b input
           output proba /\
         (plan_well_formed raw_requests (batches, Some e) = true ->
          fst (extent b) <= snd (extent b) /\
          snd (extent b) <= progress /\
          (NoDup raw_requests ->
           forall q,
             In q remaining -> ~ In q (out_requests output)))).
Proof.
  intros Hs Hp Hok. cbv zeta.
  set (host_ok := with_planner host (fun _ _ => (batches, None))).
  assert (Hs_ok : setup host_ok = Normal (model_state, target_memory))
    by exact Hs.
  rewrite (@execute_run host raw_requests model_state target_memory Hs).
  rewrite (@execute_run host_ok raw_requests model_state target_memory
             Hs_ok).
  cbv zeta. rewrite Hp.
  change (get_input_batches host_ok raw_requests target_memory)
    with (batches, @None TritonException).
  cbn [fst snd]. unfold batch_loop.
  change (process_batch host_ok) with (process_batch host).
  destruct (@loop_completes host model_state target_memory raw_requests
              batches loop_entry eq_refl Hok)
    as (s & Hrun & _ & Hend & _).
  rewrite Hrun. cbn [fst snd trace ticks end_request].
  destruct (@loop_responses_cleared host model_state target_memory
              raw_requests batches loop_entry s (Normal tt) eq_refl Hrun)
    as [Hrs _].
  split; [reflexivity|]. split; [exact Hend|].
  rewrite Nat.sub_succ, Nat.sub_0_r.
  unfold abort_events. rewrite Hrs, Hend. cbn [map app].
  match goal with
  | |- context [stat_events host ?st] =>
      destruct (stat_events_shape host st) as [log_lines Hshape]
  end.
  rewrite Hshape.
  exists (trace s), log_lines, (finish_events host_ok s).
  split; [reflexivity|]. split; [reflexivity|].
  unfold finish_events.
  split; [apply send_targets_stat_events|].
  split; [apply release_targets_stat_events|].
  intros input output proba Hin.
  assert (Hhandled : In (EvPredict input output proba) (trace s)).
  { apply in_app_or in Hin. destruct Hin as [Hin|Hin]; [exact Hin|].
    exfalso.
    apply in_app_or in Hin. destruct Hin as [Hin|Hin].
    { apply in_map_iff in Hin. destruct Hin as (? & Hin & _).
      discriminate Hin. }
    destruct Hin as [Hin|Hin]; [discriminate Hin|].
    apply in_app_or in Hin. destruct Hin as [Hin|Hin];
      apply in_map_iff in Hin; destruct Hin as (? & Hin & _);
      discriminate Hin. }
  split; [exact Hhandled|].
  destruct (loop_predictions_follow_plan _ _ _ _ _ Hrun _ _ _ Hhandled)
    as (b & Hb & Hcall).
  exists b. split; [exact Hb|]. split; [exact Hcall|].
  intros Hwf. unfold plan_well_formed in Hwf. cbn [fst snd] in Hwf.
  destruct (extents_end_before_progress _ _ _ _ Hwf) as [_ Hall].
  destruct (Hall b Hb) as [Hlo Hhi].
  split; [exact Hlo|]. split; [exact Hhi|].
  intros Hnd q Hq.
  destruct Hcall as (_ & _ & _ & -> & _).
  eapply slice_before_skipn_disjoint; [exact Hlo|exact Hhi|exact Hnd|].
  exact Hq.
Qed.

Lemma planning_failure_aborts_remainder_witness :
  let host := Scenario.planner_fails_second in
  let raw_requests := [10; 11; 12] in
  let model_state := Scenario.regressor in
  let target_memory := MEMORY_GPU in
  let batches := [mkBatch 0 [[4; 2]; [1; 2]]%Z (0, 2)] in
  let e := Scenario.planning_error in
  let r := TRITONBACKEND_ModelInstanceExecute host raw_requests in
  let r_ok :=
    TRITONBACKEND_ModelInstanceExecute
      (with_planner host (fun _ _ => (batches, None))) raw_requests in
  let progress := fold_left (fun _ b => snd (extent b)) batches 0 in
  let remaining := skipn progress raw_requests in
  let all_start_time := steady_clock host 0 in
  let all_end_time := steady_clock host (ticks (fst r) - 1) in
  snd r = Some (error e) /\
  end_request (fst r) = progress /\
  exists handled log_lines aggregate,
    trace (fst r) =
      handled ++
      map (fun q => EvSend q (Some (error e))) remaining ++
      EvStat
        (StatRequests remaining false all_start_time all_start_time
           all_end_time all_end_time) ::
      map EvLog log_lines ++
      map EvRelease remaining /\
    trace (fst r_ok) = handled ++ aggregate /\
    send_targets aggregate = [] /\
    release_targets aggregate = [] /\
    (forall input output proba,
       In (EvPredict input output proba) (trace (fst r)) ->
       In (EvPredict input output proba) handled /\
       exists b,
         In b batches /\
         call_for_batch model_state target_memory raw_requests b input
           output proba /\
         (plan_well_formed raw_requests (batches, Some e) = true ->
          fst (extent b) <= snd (extent b) /\
          snd (extent b) <= progress /\
          (NoDup raw_requests ->
           forall q,
             In q remaining -> ~ In q (out_requests output)))).
Proof.
  intros host raw_requests model_state target_memory batches e.
  apply (@planning_failure_aborts_remainder host raw_requests model_state
           target_memory batches e).
  - reflexivity.
  - reflexivity.
  - intros b _. reflexivity.
Defined.

(** *** The returned error *)

(** A loop that runs to its end constructed the responses of every
    batch. *)
Lemma loop_normal_constructible (host : Host) (model_state : ModelState)
  (target_memory : MemoryType) (requests : list Request)
  (batches : list InputBatch) :
  forall s s' : Frame,
    responses s = [] ->
    for_each batches
      (process_batch host model_state target_memory requests) s =
      (s', Normal tt) ->
    responses_constructible host requests batches.
Proof.
  induction batches as [|b rest IH]; intros s s' Hrs Hrun b' Hb'.
  - destruct Hb'.
  - rewrite for_each_batch_cons in Hrun by exact Hrs.
    destruct (construct_responses_throws host
                (slice (fst (extent b)) (snd (extent b)) requests))
      as [e|] eqn:Hc; [discriminate Hrun|].
    cbv zeta in Hrun. destruct Hb' as [<-|Hb'].
    + exact Hc.
    + refine (IH _ _ _ Hrun b' Hb'). reflexivity.
Qed.

(** X5: the entry point returns success exactly when the setup calls
    succeed, the planner does not fail and the responses of every
    batch can be constructed; whether prediction, sync, output staging
    or the statistics sink throw has no part in it. *)
Theorem success_is_returned_exactly_when (host : Host)
  (raw_requests : list Request) :
  snd (TRITONBACKEND_ModelInstanceExecute host raw_requests) = None <->
  exists model_state target_memory,
    setup host = Normal (model_state, target_memory) /\
    snd (get_input_batches host raw_requests target_memory) = None /\
    responses_constructible host raw_requests
      (fst (get_input_batches host raw_requests target_memory)).
Proof.
  destruct (setup host) as [[model_state target_memory]|e] eqn:Hs.
  - rewrite (@execute_run host raw_requests model_state target_memory Hs).
    cbv zeta. unfold batch_loop.
    destruct (for_each _ _ loop_entry) as [s out] eqn:Hloop.
    split.
    + intros Hret. exists model_state, target_memory.
      destruct out as [[]|e]; [|discriminate Hret].
      destruct (snd (get_input_batches host raw_requests target_memory))
        as [e|]; [discriminate Hret|].
      split; [reflexivity|]. split; [reflexivity|].
      eapply loop_normal_constructible; [|exact Hloop]. reflexivity.
    + intros (ms & mem & [= <- <-] & Hp & Hok).
      destruct (@loop_completes host model_state target_memory raw_requests
                  _ loop_entry eq_refl Hok) as (s2 & Hrun & _).
      rewrite Hloop in Hrun. injection Hrun as _ ->.
      rewrite Hp. reflexivity.
  - rewrite (@execute_setup_thrown host raw_requests e Hs). simpl.
    split; [discriminate|].
    intros (ms & mem & H & _). discriminate H.
Qed.

Lemma success_is_returned_exactly_when_witness :
  snd (TRITONBACKEND_ModelInstanceExecute Scenario.one_failing_batch [10]) =
  None.
Proof.
  apply (proj2 (@success_is_returned_exactly_when
                  Scenario.one_failing_batch [10])).
  exists Scenario.regressor, MEMORY_GPU.
  split; [reflexivity|]. split; [reflexivity|].
  intros b _. reflexivity.
Defined.

(** *** The unit count *)

Lemma size_t_wrap_idem (z : Z) : size_t_wrap (size_t_wrap z) = size_t_wrap z.
Proof. unfold size_t_wrap. apply Z.mod_mod. lia. Qed.

Lemma size_t_wrap_add_l (a b : Z) :
  size_t_wrap (size_t_wrap a + b) = size_t_wrap (a + b).
Proof. unfold size_t_wrap. apply Zplus_mod_idemp_l. Qed.

Lemma add_rows_sum (input_shapes : list (list Z)) :
  forall acc,
    size_t_wrap acc = acc ->
    add_rows acc input_shapes = size_t_wrap (acc + sum_rows input_shapes) /\
    size_t_wrap (add_rows acc input_shapes) = add_rows acc input_shapes.
Proof.
  unfold add_rows.
  induction input_shapes as [|sh rest IH]; intros acc Hacc; simpl.
  - rewrite Z.add_0_r, Hacc. auto.
  - destruct (IH (size_t_wrap (acc + row_count sh))
                (size_t_wrap_idem _)) as [IH1 IH2].
    rewrite IH1 in *. split; [|exact IH2].
    rewrite size_t_wrap_add_l. f_equal. lia.
Qed.

Lemma add_batches_sum (batches : list InputBatch) :
  forall acc,
    size_t_wrap acc = acc ->
    add_batches acc batches = size_t_wrap (acc + total_rows batches).
Proof.
  unfold add_batches.
  induction batches as [|b rest IH]; intros acc Hacc; simpl.
  - now rewrite Z.add_0_r, Hacc.
  - destruct (add_rows_sum (shapes b) Hacc) as [H1 H2].
    rewrite (IH _ H2), H1, size_t_wrap_add_l. f_equal. lia.
Qed.

(** X6: when the loop completes normally, the unit count of the
    aggregate statistic is the sum of the row counts of all the
    batches reduced modulo 2^64; it is that sum itself whenever the sum
    fits in a [size_t]. *)
Theorem aggregate_count_is_row_sum (host : Host)
  (raw_requests : list Request) (model_state : ModelState)
  (target_memory : MemoryType) (batches : list InputBatch) :
  setup host = Normal (model_state, target_memory) ->
  get_input_batches host raw_requests target_memory = (batches, None) ->
  responses_constructible host raw_requests batches ->
  exists per_batch count t0 t1,
    stats_of
      (trace (fst (TRITONBACKEND_ModelInstanceExecute host raw_requests))) =
      per_batch ++ [StatBatch count t0 t0 t1 t1] /\
    count = (total_rows batches mod 2 ^ 64)%Z /\
    ((0 <= total_rows batches < 2 ^ 64)%Z -> count = total_rows batches).
Proof.
  intros Hs Hp Hok.
  rewrite (@execute_run host raw_requests model_state target_memory Hs).
  rewrite Hp. cbv zeta. cbn [fst snd]. unfold batch_loop.
  destruct (@loop_completes host model_state target_memory raw_requests
              batches loop_entry eq_refl Hok)
    as (s' & Hrun & Htot & _ & _).
  rewrite Hrun. cbn [fst snd trace].
  rewrite stats_of_app. unfold finish_events.
  rewrite stats_of_stat_events, Htot.
  simpl total_inference_count.
  rewrite (@add_batches_sum batches 0%Z eq_refl). simpl Z.add.
  do 4 eexists. split; [reflexivity|]. split; [reflexivity|].
  intros Hfit. unfold size_t_wrap. apply Z.mod_small. exact Hfit.
Qed.

Lemma aggregate_count_is_row_sum_witness :
  let batches :=
    [mkBatch 0 [[4; 2]; [1; 2]]%Z (0, 2); mkBatch 1 [[8; 2]]%Z (2, 3)] in
  exists per_batch count t0 t1,
    stats_of
      (trace (fst (TRITONBACKEND_ModelInstanceExecute Scenario.two_batches
                     [10; 11; 12]))) =
      per_batch ++ [StatBatch count t0 t0 t1 t1] /\
    count = (total_rows batches mod 2 ^ 64)%Z /\
    ((0 <= total_rows batches < 2 ^ 64)%Z -> count = total_rows batches).
Proof.
  intros batches.
  apply (@aggregate_count_is_row_sum Scenario.two_batches [10; 11; 12]
           Scenario.regressor MEMORY_GPU batches).
  - reflexivity.
  - reflexivity.
  - intros b _. reflexivity.
Defined.

(** ** The lifecycle entry points *)

Section LifecycleFacts.

Local Open Scope string_scope.

(** X7: once the backend name is obtained, [TRITONBACKEND_Initialize]
    logs its line whatever the version check does; it returns success
    exactly when the check returns true, and the UNSUPPORTED error when
    the check returns false. *)
Theorem initialize_gates_on_version (srv : Server) (name : string) :
  get_backend_name srv = Normal name ->
  let r := TRITONBACKEND_Initialize srv in
  fst r = [EvLogInfo ("TRITONBACKEND_Initialize: " ++ name)] /\
  (snd r = None <-> check_backend_version srv = Normal true) /\
  (check_backend_version srv = Normal false ->
   exists msg, snd r = Some (mkError TRITONSERVER_ERROR_UNSUPPORTED msg)).
Proof.
  intros Hname. unfold TRITONBACKEND_Initialize. rewrite Hname.
  unfold run_entry, life_bind, life_lift, log_info, life_emit, life_ret.
  destruct (check_backend_version srv) as [[|]|e]; cbn [fst snd negb app];
    (split; [reflexivity|]); split.
  - split; reflexivity.
  - discriminate.
  - split; discriminate.
  - intros _. eexists. reflexivity.
  - split; discriminate.
  - discriminate.
Qed.

Lemma initialize_gates_on_version_witness :
  let r := TRITONBACKEND_Initialize ServerScenario.old_api in
  fst r = [EvLogInfo ("TRITONBACKEND_Initialize: " ++ "fil")] /\
  (snd r = None <->
   check_backend_version ServerScenario.old_api = Normal true) /\
  (check_backend_version ServerScenario.old_api = Normal false ->
   exists msg, snd r = Some (mkError TRITONSERVER_ERROR_UNSUPPORTED msg)).
Proof.
  apply (@initialize_gates_on_version ServerScenario.old_api "fil").
  reflexivity.
Defined.

(** X8: [TRITONBACKEND_ModelInitialize] installs a model state only
    after the name and the version were obtained and the line logged,
    the state installed is the one [ModelState::Create] returned, and
    installing it is the last thing the function does; the function
    returns success only if a state was installed. *)
Theorem model_initialize_installs_created_state (srv : Server) :
  let r := TRITONBACKEND_ModelInitialize srv in
  (forall st,
     In (EvSetModelState st) (fst r) ->
     exists name version,
       get_model_name srv = Normal name /\
       get_model_version srv = Normal version /\
       ModelState_Create srv = Normal st /\
       fst r =
         [EvLogInfo
            ("TRITONBACKEND_ModelInitialize: " ++ name ++ " (version " ++
             to_string_uint64 version ++ ")");
          EvSetModelState st]) /\
  (snd r = None ->
   exists st,
     In (EvSetModelState st) (fst r) /\
     set_model_state_throws srv st = None).
Proof.
  cbv zeta. unfold TRITONBACKEND_ModelInitialize, run_entry, life_bind,
    life_lift, log_info, set_model_state, life_emit, life_throw_when,
    life_ret.
  destruct (get_model_name srv) as [name|e1]; cbn [fst snd app].
  2: { split; [intros st []|discriminate]. }
  destruct (get_model_version srv) as [version|e2]; cbn [fst snd app].
  2: { split; [intros st []|discriminate]. }
  destruct (ModelState_Create srv) as [created|e3]; cbn [fst snd app].
  2: { split; [|discriminate].
       intros st [H|[]]. discriminate H. }
  destruct (set_model_state_throws srv created) as [e4|] eqn:Hset;
    cbn [fst snd app]; split.
  - intros st [H|[[= <-]|[]]]; [discriminate H|].
    exists name, version. repeat split.
  - discriminate.
  - intros st [H|[[= <-]|[]]]; [discriminate H|].
    exists name, version. repeat split.
  - intros _. exists created. split; [|exact Hset].
    right. left. reflexivity.
Qed.

Lemma model_initialize_installs_created_state_witness :
  exists st,
    In (EvSetModelState st)
      (fst (TRITONBACKEND_ModelInitialize ServerScenario.healthy)) /\
    set_model_state_throws ServerScenario.healthy st = None.
Proof.
  apply (proj2 (@model_initialize_installs_created_state
                  ServerScenario.healthy)).
  reflexivity.
Defined.

(** X9: [TRITONBACKEND_ModelInstanceInitialize] installs an instance
    state only after the name, the device and the kind of the instance
    were obtained, the line logged and the model state fetched; the
    state installed is the one [ModelInstanceState::Create] returned
    for that model state; the function returns success only if a state
    was installed. *)
Theorem instance_initialize_installs_created_state (srv : Server) :
  let r := TRITONBACKEND_ModelInstanceInitialize srv in
  (forall inst,
     In (EvSetInstanceState inst) (fst r) ->
     exists name device_id kind model_state,
       get_model_instance_name srv = Normal name /\
       get_device_id srv = Normal device_id /\
       get_instance_kind srv = Normal kind /\
       get_instance_model_state srv = Normal model_state /\
       ModelInstanceState_Create srv model_state = Normal inst /\
       fst r =
         [EvLogInfo
            ("TRITONBACKEND_ModelInstanceInitialize: " ++ name ++ " (" ++
             TRITONSERVER_InstanceGroupKindString srv kind ++ " device " ++
             to_string_int32 device_id ++ ")");
          EvSetInstanceState inst]) /\
  (snd r = None ->
   exists inst,
     In (EvSetInstanceState inst) (fst r) /\
     set_instance_state_throws srv inst = None).
Proof.
  cbv zeta. unfold TRITONBACKEND_ModelInstanceInitialize, run_entry,
    life_bind, life_lift, log_info, set_instance_state, life_emit,
    life_throw_when, life_ret.
  destruct (get_model_instance_name srv) as [name|e1]; cbn [fst snd app].
  2: { split; [intros st []|discriminate]. }
  destruct (get_device_id srv) as [device_id|e2]; cbn [fst snd app].
  2: { split; [intros st []|discriminate]. }
  destruct (get_instance_kind srv) as [kind|e3]; cbn [fst snd app].
  2: { split; [intros st []|discriminate]. }
  destruct (get_instance_model_state srv) as [model_state|e4];
    cbn [fst snd app].
  2: { split; [|discriminate].
       intros st [H|[]]. discriminate H. }
  destruct (ModelInstanceState_Create srv model_state) as [created|e5]
    eqn:Hcreate; cbn [fst snd app].
  2: { split; [|discriminate].
       intros st [H|[]]. discriminate H. }
  destruct (set_instance_state_throws srv created) as [e6|] eqn:Hset;
    cbn [fst snd app]; split.
  - intros st [H|[[= <-]|[]]]; [discriminate H|].
    exists name, device_id, kind, model_state. repeat split. exact Hcreate.
  - discriminate.
  - intros st [H|[[= <-]|[]]]; [discriminate H|].
    exists name, device_id, kind, model_state. repeat split. exact Hcreate.
  - intros _. exists created. split; [|exact Hset].
    right. left. reflexivity.
Qed.

Lemma instance_initialize_installs_created_state_witness :
  exists inst,
    In (EvSetInstanceState inst)
      (fst (TRITONBACKEND_ModelInstanceInitialize ServerScenario.healthy)) /\
    set_instance_state_throws ServerScenario.healthy inst = None.
Proof.
  apply (proj2 (@instance_initialize_installs_created_state
                  ServerScenario.healthy)).
  reflexivity.
Defined.

(** X10: [TRITONBACKEND_ModelFinalize] deletes a model state only when
    it is the state the server handed back and unloading it returned:
    the function then unloads, logs, deletes and returns success.  When
    unloading throws, the function returns that error after the unload
    call alone: the state is not deleted and nothing is logged. *)
Theorem model_state_deleted_only_after_unload (srv : Server)
  (st : ModelState) :
  let r := TRITONBACKEND_ModelFinalize srv in
  (In (EvDeleteModelState st) (fst r) ->
   get_model_state srv = Normal (Some st) /\
   UnloadModel_throws srv st = None /\
   r =
     ([EvUnloadModel st;
       EvLogInfo "TRITONBACKEND_ModelFinalize: delete model state";
       EvDeleteModelState st], None)) /\
  (forall e,
     get_model_state srv = Normal (Some st) ->
     UnloadModel_throws srv st = Some e ->
     r = ([EvUnloadModel st], Some (error e))).
Proof.
  cbv zeta. unfold TRITONBACKEND_ModelFinalize, run_entry, life_bind,
    life_lift, log_info, UnloadModel, life_emit, life_throw_when, life_ret.
  destruct (get_model_state srv) as [[held|]|e1]; cbn [fst snd app].
  - destruct (UnloadModel_throws srv held) as [e2|] eqn:Hun;
      cbn [fst snd app]; split.
    + intros [H|[]]. discriminate H.
    + intros e [= <-] He. rewrite Hun in He. injection He as <-.
      reflexivity.
    + intros [H|[H|[[= <-]|[]]]]; try discriminate H.
      repeat split. exact Hun.
    + intros e [= <-] He. rewrite Hun in He. discriminate He.
  - split.
    + intros [H|[]]. discriminate H.
    + intros e H. discriminate H.
  - split.
    + intros [].
    + intros e H. discriminate H.
Qed.

Lemma model_state_deleted_only_after_unload_witness :
  TRITONBACKEND_ModelFinalize ServerScenario.unload_fails =
  ([EvUnloadModel ServerScenario.loaded],
   Some (error ServerScenario.unload_error)).
Proof.
  apply (proj2 (@model_state_deleted_only_after_unload
                  ServerScenario.unload_fails ServerScenario.loaded)
           ServerScenario.unload_error); reflexivity.
Defined.

(** X11: [TRITONBACKEND_ModelInstanceFinalize] deletes an instance
    state only when it is the state the server handed back and
    unloading its FIL model returned: the function then unloads, logs,
    deletes and returns success.  When unloading throws, the function
    returns that error after the unload call alone: the state is not
    deleted and nothing is logged. *)
Theorem instance_state_deleted_only_after_unload (srv : Server)
  (inst : ModelInstanceState) :
  let r := TRITONBACKEND_ModelInstanceFinalize srv in
  (In (EvDeleteInstanceState inst) (fst r) ->
   TRITONBACKEND_ModelInstanceState srv = Normal (Some inst) /\
   UnloadFILModel_throws srv inst = None /\
   r =
     ([EvUnloadFILModel inst;
       EvLogInfo
         "TRITONBACKEND_ModelInstanceFinalize: delete instance state";
       EvDeleteInstanceState inst], None)) /\
  (forall e,
     TRITONBACKEND_ModelInstanceState srv = Normal (Some inst) ->
     UnloadFILModel_throws srv inst = Some e ->
     r = ([EvUnloadFILModel inst], Some (error e))).
Proof.
  cbv zeta. unfold TRITONBACKEND_ModelInstanceFinalize, run_entry,
    life_bind, life_lift, log_info, UnloadFILModel, life_emit,
    life_throw_when, life_ret.
  destruct (TRITONBACKEND_ModelInstanceState srv) as [[held|]|e1];
    cbn [fst snd app].
  - destruct (UnloadFILModel_throws srv held) as [e2|] eqn:Hun;
      cbn [fst snd app]; split.
    + intros [H|[]]. discriminate H.
    + intros e [= <-] He. rewrite Hun in He. injection He as <-.
      reflexivity.
    + intros [H|[H|[[= <-]|[]]]]; try discriminate H.
      repeat split. exact Hun.
    + intros e [= <-] He. rewrite Hun in He. discriminate He.
  - split.
    + intros [].
    + intros e H. discriminate H.
  - split.
    + intros [].
    + intros e H. discriminate H.
Qed.

Lemma instance_state_deleted_only_after_unload_witness :
  TRITONBACKEND_ModelInstanceFinalize ServerScenario.unload_fails =
  ([EvUnloadFILModel ServerScenario.instance],
   Some (error ServerScenario.unload_error)).
Proof.
  apply (proj2 (@instance_state_deleted_only_after_unload
                  ServerScenario.unload_fails ServerScenario.instance)
           ServerScenario.unload_error); reflexivity.
Defined.

(** X12: on a null state pointer both finalizers return success
    without unloading or deleting anything, but they differ in what
    they log: [TRITONBACKEND_ModelFinalize] still writes its line,
    [TRITONBACKEND_ModelInstanceFinalize] writes nothing. *)
Theorem finalizers_on_null_state (srv : Server) :
  get_model_state srv = Normal None ->
  TRITONBACKEND_ModelInstanceState srv = Normal None ->
  TRITONBACKEND_ModelFinalize srv =
    ([EvLogInfo "TRITONBACKEND_ModelFinalize: delete model state"], None) /\
  TRITONBACKEND_ModelInstanceFinalize srv = ([], None).
Proof.
  intros Hm Hi.
  unfold TRITONBACKEND_ModelFinalize, TRITONBACKEND_ModelInstanceFinalize.
  rewrite Hm, Hi. split; reflexivity.
Qed.

Lemma finalizers_on_null_state_witness :
  TRITONBACKEND_ModelFinalize ServerScenario.no_state =
    ([EvLogInfo "TRITONBACKEND_ModelFinalize: delete model state"], None) /\
  TRITONBACKEND_ModelInstanceFinalize ServerScenario.no_state = ([], None).
Proof.
  apply (@finalizers_on_null_state ServerScenario.no_state); reflexivity.
Defined.

End LifecycleFacts.

(** ** Failures of response construction and the order of calls *)

(** X13: when [construct_responses] throws for a batch, the failure is
    handled like a planning failure: the entry point returns that
    error, and every request from the end of the previous extent on,
    the requests of the batch itself included, is sent the error and
    released after one failure statistic; the batches before keep what
    they did, and no prediction is made for the batch or after it. *)
Theorem response_construction_failure_aborts_remainder (host : Host)
  (raw_requests : list Request) (model_state : ModelState)
  (target_memory : MemoryType) (before : list InputBatch) (b : InputBatch)
  (rest : list InputBatch) (perr : option TritonException)
  (e : TritonException) :
  setup host = Normal (model_state, target_memory) ->
  get_input_batches host raw_requests target_memory =
    (before ++ b :: rest, perr) ->
  responses_constructible host raw_requests before ->
  construct_responses_throws host
    (slice (fst (extent b)) (snd (extent b)) raw_requests) = Some e ->
  let r := TRITONBACKEND_ModelInstanceExecute host raw_requests in
  let progress := fold_left (fun _ b => snd (extent b)) before 0 in
  let remaining := skipn progress raw_requests in
  exists s t0 t1 log_lines,
    for_each before
      (process_batch host model_state target_memory raw_requests)
      loop_entry = (s, Normal tt) /\
    snd r = Some (error e) /\
    trace (fst r) =
      trace s ++
      map (fun q => EvSend q (Some (error e))) remaining ++
      EvStat (StatRequests remaining false t0 t0 t1 t1) ::
      map EvLog log_lines ++
      map EvRelease remaining.
Proof.
  intros Hs Hp Hok Hc. cbv zeta.
  destruct (@loop_completes host model_state target_memory raw_requests
              before loop_entry eq_refl Hok)
    as (s & Hrun & _ & Hend & _).
  destruct (@loop_responses_cleared host model_state target_memory
              raw_requests before loop_entry s (Normal tt) eq_refl Hrun)
    as [Hrs _].
  rewrite (@execute_run host raw_requests model_state target_memory Hs).
  rewrite Hp. cbv zeta. cbn [fst snd]. unfold batch_loop.
  rewrite for_each_app, Hrun.
  rewrite for_each_batch_cons by exact Hrs.
  rewrite Hc. cbn [fst snd trace end_request responses].
  unfold abort_events. cbn [responses end_request map app ticks].
  simpl in Hend. rewrite Hend.
  match goal with
  | |- context [stat_events host ?st] =>
      destruct (stat_events_shape host st) as [log_lines Hshape]
  end.
  rewrite Hshape.
  exists s. do 2 eexists. exists log_lines.
  split; [reflexivity|]. split; reflexivity.
Qed.

Lemma response_construction_failure_aborts_remainder_witness :
  let host :=
    mkHost
      (Normal (mkInstanceState (Normal Scenario.regressor) KIND_GPU))
      (fun _ => Normal MEMORY_GPU)
      (fun _ _ =>
         ([mkBatch 0 [[4; 2]; [1; 2]]%Z (0, 2);
           mkBatch 1 [[8; 2]]%Z (2, 3)], None))
      (fun l =>
         if Nat.eqb (List.length l) 1
         then Some Scenario.planning_error else None)
      (fun _ _ _ => None) (fun _ _ _ => None) (fun _ => None)
      (fun _ => None) Scenario.clock in
  let raw_requests := [10; 11; 12] in
  let before := [mkBatch 0 [[4; 2]; [1; 2]]%Z (0, 2)] in
  let e := Scenario.planning_error in
  let r := TRITONBACKEND_ModelInstanceExecute host raw_requests in
  let progress := fold_left (fun _ b => snd (extent b)) before 0 in
  let remaining := skipn progress raw_requests in
  exists s t0 t1 log_lines,
    for_each before
      (process_batch host Scenario.regressor MEMORY_GPU raw_requests)
      loop_entry = (s, Normal tt) /\
    snd r = Some (error e) /\
    trace (fst r) =
      trace s ++
      map (fun q => EvSend q (Some (error e))) remaining ++
      EvStat (StatRequests remaining false t0 t0 t1 t1) ::
      map EvLog log_lines ++
      map EvRelease remaining.
Proof.
  intros host raw_requests before e.
  apply (@response_construction_failure_aborts_remainder host raw_requests
           Scenario.regressor MEMORY_GPU before
           (mkBatch 1 [[8; 2]]%Z (2, 3)) [] None e).
  - reflexivity.
  - reflexivity.
  - intros b [ <- | [] ]. reflexivity.
  - reflexivity.
Defined.

(** Within one iteration a sync comes right after the prediction into
    the same output batch, and only when staging that output batch and
    the prediction both returned. *)
Lemma sync_in_batch_events (host : Host) (model_state : ModelState)
  (target_memory : MemoryType) (requests : list Request) (b : InputBatch)
  (t0 : nat) (pre post : list Event) (output : OutputBatch) :
  fst (batch_events host model_state target_memory requests b t0) =
    pre ++ EvSync output :: post ->
  exists input proba,
    pre = [EvPredict input output proba] /\
    predict_throws host input output proba = None /\
    get_output_batch_throws host (out_requests output) (out_memory output)
      (out_shapes output) = None.
Proof.
  unfold batch_events, compute_attempt.
  set (breqs := slice (fst (extent b)) (snd (extent b)) requests).
  set (osh := map (output_shape_of model_state) (shapes b)).
  set (ob := mkOutput breqs osh target_memory).
  assert (Htail : forall err st,
    ~ In (EvSync output)
        (map (fun r => EvSend r err) breqs ++ stat_events host st ++
         map EvRelease breqs)).
  { intros err st Hin.
    apply in_app_or in Hin. destruct Hin as [Hin|Hin].
    { apply in_map_iff in Hin. destruct Hin as (? & Hin & _).
      discriminate Hin. }
    apply in_app_or in Hin. destruct Hin as [Hin|Hin].
    - apply stat_events_members in Hin. destruct Hin as [Hin|Hin];
        discriminate Hin.
    - apply in_map_iff in Hin. destruct Hin as (? & Hin & _).
      discriminate Hin. }
  assert (Hoccurs : forall l,
    l = pre ++ EvSync output :: post -> In (EvSync output) l).
  { intros l ->. apply in_or_app. right. now left. }
  assert (Hboth : forall tail,
    get_output_batch_throws host breqs target_memory osh = None ->
    predict_throws host (data b) ob (predict_proba model_state) = None ->
    ~ In (EvSync output) tail ->
    [EvPredict (data b) ob (predict_proba model_state)] ++ [EvSync ob] ++
      tail = pre ++ EvSync output :: post ->
    exists input proba,
      pre = [EvPredict input output proba] /\
      predict_throws host input output proba = None /\
      get_output_batch_throws host (out_requests output)
        (out_memory output) (out_shapes output) = None).
  { intros tail Hg Hp Hnot Heq.
    apply split_middle in Heq; [|simpl; intuition discriminate|exact Hnot].
    destruct Heq as (a & c & Hmid & -> & _).
    destruct a as [|x a]; [|destruct a; discriminate Hmid].
    injection Hmid as <-. rewrite app_nil_r.
    exists (data b), (predict_proba model_state).
    split; [reflexivity|]. split; [exact Hp|exact Hg]. }
  destruct (get_output_batch_throws host breqs target_memory osh)
    as [e1|] eqn:Hg; cbn [fst snd].
  { intros Heq. apply Hoccurs in Heq. simpl in Heq.
    now elim (Htail _ _ Heq). }
  fold ob.
  destruct (predict_throws host (data b) ob (predict_proba model_state))
    as [e2|] eqn:Hp; cbn [fst snd].
  { intros Heq. apply Hoccurs in Heq. simpl in Heq.
    destruct Heq as [Heq|Heq]; [discriminate Heq|].
    now elim (Htail _ _ Heq). }
  destruct (sync_throws host ob) as [e3|]; cbn [fst snd]; intros Heq.
  - exact (Hboth _ eq_refl eq_refl (Htail _ _) Heq).
  - exact (Hboth _ eq_refl eq_refl (Htail _ _) Heq).
Qed.

(** X14: in every invocation a sync call comes immediately after the
    prediction call made into the same output batch, and only when
    staging that output batch and that prediction did not throw; a
    prediction that throws is never followed by a sync, and an output
    batch whose staging throws is never synced. *)
Theorem sync_only_after_its_prediction (host : Host)
  (raw_requests : list Request) :
  let tr :=
    trace (fst (TRITONBACKEND_ModelInstanceExecute host raw_requests)) in
  (forall pre output post,
     tr = pre ++ EvSync output :: post ->
     exists before input proba,
       pre = before ++ [EvPredict input output proba] /\
       predict_throws host input output proba = None /\
       get_output_batch_throws host (out_requests output)
         (out_memory output) (out_shapes output) = None) /\
  (forall pre input output proba post e,
     tr = pre ++ EvPredict input output proba :: post ->
     predict_throws host input output proba = Some e ->
     forall output' post', post <> EvSync output' :: post') /\
  (forall output e,
     get_output_batch_throws host (out_requests output) (out_memory output)
       (out_shapes output) = Some e ->
     ~ In (EvSync output) tr).
Proof.
  cbv zeta.
  set (P := fun tr : list Event =>
    forall pre output post, tr = pre ++ EvSync output :: post ->
    exists before input proba,
      pre = before ++ [EvPredict input output proba] /\
      predict_throws host input output proba = None /\
      get_output_batch_throws host (out_requests output)
        (out_memory output) (out_shapes output) = None).
  assert (Hnil : P []).
  { intros [|x l] o q H; discriminate H. }
  assert (Hquiet : forall tr evs,
    P tr -> (forall o, ~ In (EvSync o) evs) -> P (tr ++ evs)).
  { intros tr evs Htr Hq p o q Heq.
    apply app_eq_app in Heq. destruct Heq as [m [[Hm1 Hm2]|[Hm1 Hm2]]].
    - destruct m as [|x m].
      + elim (Hq o). simpl in Hm2. rewrite <- Hm2. now left.
      + injection Hm2 as <- _. exact (Htr _ _ _ Hm1).
    - elim (Hq o). rewrite Hm2. apply in_or_app. right. now left. }
  assert (HP : P (trace (fst (TRITONBACKEND_ModelInstanceExecute host
                                raw_requests)))).
  { destruct (setup host) as [[model_state target_memory]|e] eqn:Hs.
    - rewrite (@execute_run host raw_requests model_state target_memory Hs).
      cbv zeta. unfold batch_loop.
      destruct (for_each _ _ loop_entry) as [s out] eqn:Hloop.
      apply (@loop_trace_invariant host model_state target_memory
               raw_requests P) in Hloop;
        [|clear Hloop|reflexivity|exact Hnil].
      + destruct Hloop as [_ Hinv].
        assert (Habort : forall e,
          P (trace s ++ abort_events host raw_requests s e)).
        { intros e. apply Hquiet; [exact Hinv|].
          unfold abort_events. intros o Hin.
          apply in_app_or in Hin. destruct Hin as [Hin|Hin].
          { apply in_map_iff in Hin. destruct Hin as (? & Hin & _).
            discriminate Hin. }
          apply in_app_or in Hin. destruct Hin as [Hin|Hin].
          { apply in_map_iff in Hin. destruct Hin as (? & Hin & _).
            discriminate Hin. }
          apply in_app_or in Hin. destruct Hin as [Hin|Hin].
          - apply stat_events_members in Hin. destruct Hin as [Hin|Hin];
              discriminate Hin.
          - apply in_map_iff in Hin. destruct Hin as (? & Hin & _).
            discriminate Hin. }
        destruct out as [[]|e];
          [destruct (snd (get_input_batches host raw_requests
                            target_memory)) as [e|]|];
          cbn [fst snd trace]; try apply Habort.
        apply Hquiet; [exact Hinv|].
        unfold finish_events. intros o Hin.
        apply stat_events_members in Hin. destruct Hin as [Hin|Hin];
          discriminate Hin.
      + intros tr b t0 Htr p o q Heq.
        apply app_eq_app in Heq. destruct Heq as [m [[Hm1 Hm2]|[Hm1 Hm2]]].
        * destruct m as [|x m].
          -- simpl in Hm2. symmetry in Hm2.
             change (EvSync o :: q) with ([] ++ EvSync o :: q) in Hm2.
             apply sync_in_batch_events in Hm2.
             destruct Hm2 as (? & ? & Hm2 & _). discriminate Hm2.
          -- injection Hm2 as <- _. exact (Htr _ _ _ Hm1).
        * apply sync_in_batch_events in Hm2.
          destruct Hm2 as (input & proba & -> & Hpr & Hst).
          exists tr, input, proba. auto.
    - rewrite (@execute_setup_thrown host raw_requests e Hs). exact Hnil. }
  split; [exact HP|]. split.
  - intros pre input output proba post e Heq Hthrows output' post' ->.
    replace (pre ++ EvPredict input output proba :: EvSync output' :: post')
      with ((pre ++ [EvPredict input output proba]) ++
            EvSync output' :: post') in Heq
      by (now rewrite <- app_assoc).
    destruct (HP _ _ _ Heq) as (before & input' & proba' & Hlast & Hok & _).
    apply app_inj_tail in Hlast. destruct Hlast as [_ Hlast].
    injection Hlast as -> -> ->.
    rewrite Hok in Hthrows. discriminate Hthrows.
  - intros output e Hthrows Hin.
    apply in_split in Hin. destruct Hin as (pre & post & Heq).
    destruct (HP _ _ _ Heq) as (_ & _ & _ & _ & _ & Hok).
    rewrite Hok in Hthrows. discriminate Hthrows.
Qed.

Lemma sync_only_after_its_prediction_witness :
  let output := mkOutput [10; 11] [[4]; [1]]%Z MEMORY_GPU in
  exists before input proba,
    [EvPredict 0 output false] = before ++ [EvPredict input output proba] /\
    predict_throws Scenario.two_batches input output proba = None /\
    get_output_batch_throws Scenario.two_batches (out_requests output)
      (out_memory output) (out_shapes output) = None.
Proof.
  intros output.
  apply (proj1 (@sync_only_after_its_prediction Scenario.two_batches
                  [10; 11; 12])
           [EvPredict 0 output false] output
           [EvSend 10 None; EvSend 11 None;
            EvStat (StatRequests [10; 11] true 101 102 103 104);
            EvRelease 10; EvRelease 11;
            EvPredict 1 (mkOutput [12] [[8]]%Z MEMORY_GPU) false;
            EvSend 12 (Some (error Scenario.compute_error));
            EvStat (StatRequests [12] false 105 105 107 108);
            EvRelease 12;
            EvStat (StatBatch 13 100 100 109 109)]).
  reflexivity.
Defined.

(** The plan of the failing planner keeps the contract on extents, and
    the three handles are distinct. *)
Example planner_fails_second_keeps_contract :
  plan_well_formed [10; 11; 12]
    (get_input_batches Scenario.planner_fails_second [10; 11; 12]
       MEMORY_GPU) = true /\
  NoDup [10; 11; 12].
Proof.
  split; [reflexivity|].
  repeat constructor; simpl; intuition discriminate.
Qed.
